(** * stress-daemon: the daemon-creation stressor of stress-ng

    A shallow embedding of [stress-daemon.c].  Every process image is a
    [world]: the descriptors it holds open, its signal dispositions, the
    bogo-operation counter, a log of what it did, and the answers its
    environment (kernel, C library, stress-ng harness) will give to the calls
    it still has to make.  A function of the C file becomes a function on
    worlds; it yields [None] when the environment answers run out before the
    C function is done.  A process that a signal ends is not done with its
    function: its [fate] is [killed], with the image it had at that moment.

    [fork] returns twice.  A run of the model follows one control path through
    the fork tree: the list of [fork] answers says, call after call, which
    return value the followed process saw (negative with an errno, [0] in the
    new process, the child's pid in the caller). *)

From Stdlib Require Import ZArith List Bool Lia.
From stdpp Require Import gmap strings.
Import ListNotations.

Local Open Scope Z_scope.

(** ** The platform: constants of the system headers *)

(** [<errno.h>] and [<signal.h>] are not part of the stressor; the values they
    give are parameters of the development.  [NSIG] and [_NSIG] may be left
    undefined by the headers, and the build may find no [clearenv]. *)
Class Platform := {
  EINTR : Z;
  EAGAIN : Z;
  ENOMEM : Z;
  EPIPE : Z;
  SIGALRM : Z;
  SIGPIPE : Z;
  NSIG : option Z;
  _NSIG : option Z;
  HAVE_CLEARENV : bool
}.

Definition EXIT_SUCCESS : Z := 0.
Definition EXIT_FAILURE : Z := 1.

(** [#if defined(NSIG) ... #elif defined(_NSIG) ... #else (256)] *)
Definition MAX_SIGNUM `{Platform} : Z :=
  match NSIG with
  | Some n => n
  | None => match _NSIG with
            | Some n => n
            | None => 256
            end
  end.

Definition MAX_BACKOFF : Z := 10000.

(** [uint64_t] arithmetic wraps around. *)
Definition u64 (z : Z) : Z := z mod 2 ^ 64.

(** ** Process images *)

Inductive disposition := SIG_DFL | STOP_HANDLER.

Inductive proc_state := STRESS_STATE_RUN | STRESS_STATE_DEINIT.

Inductive message := pipe_failed | fork_failed | read_failed.

(** What a process was seen to do. *)
Inductive action :=
| a_pr_fail (m : message) (errno : Z)
| a_pr_dbg (m : message) (errno : Z)
| a_set_proc_state (s : proc_state)
| a_fork (pid : Z)
| a_waitpid (pid : Z)
| a_usleep (usec : Z)
| a_setsid
| a_sigprocmask_empty
| a_clearenv
| a_chdir_root
| a_umask (mask : Z)
| a_drop_capabilities
| a_read (fd : Z) (n : Z)
| a_write (fd : Z) (sent : list Z).

(** The answer of [pipe]: its return value, the errno it leaves, and the two
    descriptors it hands out when it succeeds. *)
Record pipe_answer := PipeAnswer {
  pipe_rc : Z;
  pipe_errno : Z;
  pipe_rd : Z;
  pipe_wr : Z
}.

Record world := World {
  open_fds : gset Z;                 (* descriptors open in this process *)
  sig_table : gmap Z disposition;    (* dispositions set so far *)
  counter : Z;                       (* the bogo-operation counter *)
  log : list action;                 (* oldest action first *)
  keep_q : list bool;                (* keep_stressing, keep_stressing_flag *)
  redo_q : list bool;                (* stress_redo_fork *)
  rc_q : list Z;                     (* int-returning calls, in call order;
                                        a failed write: then its errno *)
  pipe_q : list pipe_answer          (* pipe *)
}.

Definition with_open (f : gset Z -> gset Z) (w : world) : world :=
  World (f (open_fds w)) (sig_table w) (counter w) (log w)
        (keep_q w) (redo_q w) (rc_q w) (pipe_q w).

Definition with_sig (f : gmap Z disposition -> gmap Z disposition)
    (w : world) : world :=
  World (open_fds w) (f (sig_table w)) (counter w) (log w)
        (keep_q w) (redo_q w) (rc_q w) (pipe_q w).

Definition with_counter (c : Z) (w : world) : world :=
  World (open_fds w) (sig_table w) c (log w)
        (keep_q w) (redo_q w) (rc_q w) (pipe_q w).

Definition did (a : action) (w : world) : world :=
  World (open_fds w) (sig_table w) (counter w) (log w ++ [a])
        (keep_q w) (redo_q w) (rc_q w) (pipe_q w).

Definition with_keep_q (q : list bool) (w : world) : world :=
  World (open_fds w) (sig_table w) (counter w) (log w)
        q (redo_q w) (rc_q w) (pipe_q w).

Definition with_redo_q (q : list bool) (w : world) : world :=
  World (open_fds w) (sig_table w) (counter w) (log w)
        (keep_q w) q (rc_q w) (pipe_q w).

Definition with_rc_q (q : list Z) (w : world) : world :=
  World (open_fds w) (sig_table w) (counter w) (log w)
        (keep_q w) (redo_q w) q (pipe_q w).

Definition with_pipe_q (q : list pipe_answer) (w : world) : world :=
  World (open_fds w) (sig_table w) (counter w) (log w)
        (keep_q w) (redo_q w) (rc_q w) q.

(** What became of a process inside a function: it is still running, in the
    world [w], or a signal has ended it, leaving the image [w]. *)
Inductive fate := alive (w : world) | killed (sig : Z) (w : world).

Definition image (f : fate) : world :=
  match f with
  | alive w => w
  | killed _ w => w
  end.

(** The disposition of a signal; one never set has the default action. *)
Definition disposition_of (sig : Z) (w : world) : disposition :=
  default SIG_DFL (sig_table w !! sig).

(** Sequencing of calls that need an answer from the environment. *)
Notation "'ask' ( x , w1 ) <- e ; k" :=
  (match e with
   | Some (x, w1) => k
   | None => None
   end)
  (at level 10, x name, w1 name, e at level 100, k at level 200,
   format "'[v' 'ask'  ( x ,  w1 )  <-  e ; '/' k ']'").

(** ** The environment's calls *)

Definition next_rc (w : world) : option (Z * world) :=
  match rc_q w with
  | [] => None
  | rc :: q => Some (rc, with_rc_q q w)
  end.

Definition next_keep (w : world) : option (bool * world) :=
  match keep_q w with
  | [] => None
  | b :: q => Some (b, with_keep_q q w)
  end.

(** The harness's predicates [keep_stressing], [keep_stressing_flag] and
    [stress_redo_fork] are not defined here; whatever they compute, their
    answers belong to the environment. *)
Definition keep_stressing (w : world) : option (bool * world) := next_keep w.
Definition keep_stressing_flag (w : world) : option (bool * world) := next_keep w.

Definition stress_redo_fork (errno : Z) (w : world) : option (bool * world) :=
  match redo_q w with
  | [] => None
  | b :: q => Some (b, with_redo_q q w)
  end.

(** Modelled from the spec: [stress_sig_stop_stressing] is the harness's
    stop-signal registration primitive ("on signal S, set the keep-running
    predicate false"); its body is not in [stress-daemon.c].  A negative
    return value reports that nothing was registered. *)
Definition stress_sig_stop_stressing (sig : Z) (w : world)
    : option (Z * world) :=
  ask (rc, w1) <- next_rc w;
  if rc <? 0 then Some (rc, w1)
  else Some (rc, with_sig (fun t => <[sig := STOP_HANDLER]> t) w1).

(** Modelled from the spec: [inc_counter] is the harness's "operation counter
    increment callable"; it is declared in [stress-ng.h], not here. *)
Definition inc_counter (w : world) : world := with_counter (counter w + 1) w.

(** The harness's reporting calls leave their trace in the log. *)

Definition stress_set_proc_state (s : proc_state) (w : world) : world :=
  did (a_set_proc_state s) w.

Definition pr_fail (m : message) (errno : Z) (w : world) : world :=
  did (a_pr_fail m errno) w.

Definition pr_dbg (m : message) (errno : Z) (w : world) : world :=
  did (a_pr_dbg m errno) w.

(** [close]: the descriptor is no longer open; closing one that is not open
    changes nothing (the stressor ignores the error). *)
Definition close (fd : Z) (w : world) : world :=
  with_open (fun s => s ∖ {[fd]}) w.

(** [signal]: number 0 and below name no signal, the call fails and the
    stressor ignores it. *)
Definition signal (sig : Z) (d : disposition) (w : world) : world :=
  if 0 <? sig then with_sig (fun t => <[sig := d]> t) w else w.

Definition pipe (w : world) : option (pipe_answer * world) :=
  match pipe_q w with
  | [] => None
  | a :: q =>
      let w1 := with_pipe_q q w in
      if pipe_rc a <? 0 then Some (a, w1)
      else Some (a, with_open (fun s => {[pipe_rd a]} ∪ ({[pipe_wr a]} ∪ s)) w1)
  end.

(** [setsid], [chdir]: the return value is the environment's. *)
Definition setsid (w : world) : option (Z * world) :=
  ask (rc, w1) <- next_rc w;
  Some (rc, did a_setsid w1).

Definition chdir_root (w : world) : option (Z * world) :=
  ask (rc, w1) <- next_rc w;
  Some (rc, did a_chdir_root w1).

(** [open], [dup]: a non-negative return value is a new open descriptor. *)
Definition open_dev_null (w : world) : option (Z * world) :=
  ask (rc, w1) <- next_rc w;
  if rc <? 0 then Some (rc, w1)
  else Some (rc, with_open (fun s => {[rc]} ∪ s) w1).

Definition dup (fd : Z) (w : world) : option (Z * world) :=
  ask (rc, w1) <- next_rc w;
  if rc <? 0 then Some (rc, w1)
  else Some (rc, with_open (fun s => {[rc]} ∪ s) w1).

(** How a [write] ends: it returns [sz], or a signal ends the process inside
    it. *)
Inductive write_end :=
| write_returns (sz : Z) (w : world)
| write_killed (sig : Z) (w : world).

(** [write]: the return value [sz] is the environment's; the bytes that
    reached the descriptor are the first [sz] of the buffer, none when the
    call failed.  A call that failed has its errno next in the answers.
    EPIPE says that nobody is left to read from the pipe: the kernel first
    raises SIGPIPE, and if that signal has its default action the process ends
    there and [write] never returns.  (No signal is blocked when [daemons]
    writes: it has emptied the mask.) *)
Definition write `{Platform} (fd : Z) (buf : list Z) (w : world)
    : option write_end :=
  ask (sz, w1) <- next_rc w;
  let w2 := did (a_write fd (firstn (Z.to_nat sz) buf)) w1 in
  if sz <? 0 then
    ask (errno, w3) <- next_rc w2;
    if errno =? EPIPE then
      match disposition_of SIGPIPE w3 with
      | SIG_DFL => Some (write_killed SIGPIPE w3)
      | STOP_HANDLER => Some (write_returns sz w3)
      end
    else Some (write_returns sz w3)
  else Some (write_returns sz w2).

Definition shim_usleep_interruptible (usec : Z) (w : world) : world :=
  did (a_usleep usec) w.

Definition read (fd : Z) (answer : Z * Z) (w : world) : Z * world :=
  (fst answer, did (a_read fd (fst answer)) w).

Definition waitpid (pid : Z) (w : world) : world := did (a_waitpid pid) w.

(** ** [daemon_wait_pid]: wait for the child if [daemon_wait] is set,
    otherwise let init do it *)
Definition daemon_wait_pid (pid : Z) (daemon_wait : bool) (w : world) : world :=
  if daemon_wait then waitpid pid w else w.

(** ** [daemons]: fork off a child and let the parent die *)

(** The exit labels of [daemons]; [fds] are the three descriptors on the null
    device, [fd] is the write end of the pipe. *)
Definition tidy (fds : Z * Z * Z) (w : world) : world :=
  let '(fds0, fds1, fds2) := fds in
  close fds0 (close fds1 (close fds2 w)).

Definition err (fd : Z) (w : world) : world := close fd w.
Definition err0 (fd fds0 : Z) (w : world) : world := err fd (close fds0 w).
Definition err1 (fd fds0 fds1 : Z) (w : world) : world :=
  err0 fd fds0 (close fds1 w).
Definition err2 (fd : Z) (fds : Z * Z * Z) (w : world) : world :=
  let '(fds0, fds1, fds2) := fds in
  err1 fd fds0 fds1 (close fds2 w).

(** [backoff += 100; if (backoff > MAX_BACKOFF) backoff = MAX_BACKOFF;] *)
Definition next_backoff (backoff : Z) : Z :=
  let backoff1 := u64 (backoff + 100) in
  if backoff1 >? MAX_BACKOFF then MAX_BACKOFF else backoff1.

(** [for (i = 0; i < MAX_SIGNUM; i++) (void)signal(i, SIG_DFL);] with [n]
    rounds left, the next one at [i]. *)
Fixpoint signal_reset (n : nat) (i : Z) (w : world) : world :=
  match n with
  | O => w
  | S n1 => signal_reset n1 (i + 1) (signal i SIG_DFL w)
  end.

Inductive init_result :=
| init_aborted (w : world)
| init_ready (fds : Z * Z * Z) (w : world).

Section Stressor.
Context `{Platform}.

(** [daemons], up to the spawning loop. *)
Definition daemons_init (fd : Z) (w : world) : option init_result :=
  ask (rc, w1) <- stress_sig_stop_stressing SIGALRM w;
  if rc <? 0 then Some (init_aborted (err fd w1)) else
  ask (rc, w2) <- setsid w1;
  if rc <? 0 then Some (init_aborted (err fd w2)) else
  let w3 := close 2 (close 1 (close 0 w2)) in
  let w4 := signal_reset (Z.to_nat MAX_SIGNUM) 0 w3 in
  let w5 := did a_sigprocmask_empty w4 in
  let w6 := if HAVE_CLEARENV then did a_clearenv w5 else w5 in
  ask (fds0, w7) <- open_dev_null w6;
  if fds0 <? 0 then Some (init_aborted (err fd w7)) else
  ask (fds1, w8) <- dup 0 w7;
  if fds1 <? 0 then Some (init_aborted (err0 fd fds0 w8)) else
  ask (fds2, w9) <- dup 0 w8;
  if fds2 <? 0 then Some (init_aborted (err1 fd fds0 fds1 w9)) else
  Some (init_ready (fds0, fds1, fds2) w9).

(** The spawning loop [while (keep_stressing_flag())].  [forks] holds, for
    every [fork] the followed process meets, the return value and the errno
    it sees. *)
Fixpoint daemons_loop (fd : Z) (daemon_wait : bool) (fds : Z * Z * Z)
    (backoff : Z) (forks : list (Z * Z)) (w : world) : option fate :=
  ask (keep, w1) <- keep_stressing_flag w;
  if negb keep then Some (alive (tidy fds w1)) else
  match forks with
  | [] => None
  | (pid, errno) :: forks1 =>
      let w2 := did (a_fork pid) w1 in
      if pid <? 0 then
        (* A slow init? no pids or memory, retry *)
        if (errno =? EAGAIN) || (errno =? ENOMEM) then
          (* Minor backoff before retrying *)
          let w3 := shim_usleep_interruptible backoff w2 in
          daemons_loop fd daemon_wait fds (next_backoff backoff) forks1 w3
        else Some (alive (tidy fds w2))
      else if pid =? 0 then
        (* Child *)
        let buf := [255] in
        ask (rc, w3) <- chdir_root w2;
        if rc <? 0 then Some (alive (err2 fd fds w3)) else
        let w4 := did (a_umask 0) w3 in
        let w5 := did a_drop_capabilities w4 in
        match write fd buf w5 with
        | None => None
        | Some (write_killed sig w6) => Some (killed sig w6)
        | Some (write_returns sz w6) =>
            if negb (sz =? Z.of_nat (length buf))
            then Some (alive (err2 fd fds w6))
            else daemons_loop fd daemon_wait fds backoff forks1 w6
        end
      else
        (* Parent, will be reaped by init unless daemon_wait is true *)
        Some (alive (tidy fds (daemon_wait_pid pid daemon_wait w2)))
  end.

Definition daemons (fd : Z) (daemon_wait : bool) (forks : list (Z * Z))
    (w : world) : option fate :=
  match daemons_init fd w with
  | None => None
  | Some (init_aborted w1) => Some (alive w1)
  | Some (init_ready fds w1) => daemons_loop fd daemon_wait fds 100 forks w1
  end.

(** ** [stress_daemon]: stress by multiple daemonizing forks *)

(** How the followed process left [stress_daemon]: by [return], through
    [shim_exit_group] in the forked child, or ended by a signal. *)
Inductive ending := returned (rc : Z) | exited (code : Z) | signalled (sig : Z).

(** The label [finish]. *)
Definition finish (w : world) : ending * world :=
  (returned EXIT_SUCCESS, stress_set_proc_state STRESS_STATE_DEINIT w).

(** The parent's [do { ... } while (keep_stressing(args))]; [reads] holds the
    return value and the errno of every [read]. *)
Fixpoint read_loop (fds0 : Z) (reads : list (Z * Z)) (w : world)
    : option world :=
  match reads with
  | [] => None
  | answer :: reads1 =>
      let '(n, w1) := read fds0 answer w in
      let errno := snd answer in
      if n <? 0 then
        let w2 := close fds0 w1 in
        Some (if negb (errno =? EINTR) then pr_dbg read_failed errno w2
              else w2)
      else
        let w2 := inc_counter w1 in
        ask (keep, w3) <- keep_stressing w2;
        if keep then read_loop fds0 reads1 w3 else Some w3
  end.

(** From the label [again] on: the fork of the Worker and what each side of
    it does. *)
Fixpoint again (daemon_wait : bool) (fds0 fds1 : Z)
    (forks reads : list (Z * Z)) (w : world) : option (ending * world) :=
  match forks with
  | [] => None
  | (pid, errno) :: forks1 =>
      let w1 := did (a_fork pid) w in
      if pid <? 0 then
        ask (redo, w2) <- stress_redo_fork errno w1;
        if redo then again daemon_wait fds0 fds1 forks1 reads w2 else
        ask (keep, w3) <- keep_stressing w2;
        if negb keep then Some (finish w3) else
        let w4 := pr_fail fork_failed errno w3 in
        Some (returned EXIT_FAILURE, close fds1 (close fds0 w4))
      else if pid =? 0 then
        (* Children *)
        let w2 := close fds0 w1 in
        match daemons fds1 daemon_wait forks1 w2 with
        | None => None
        | Some (killed sig w3) => Some (signalled sig, w3)
        | Some (alive w3) => Some (exited 0, close fds1 w3)
        end
      else
        (* Parent *)
        let w2 := close fds1 w1 in
        match read_loop fds0 reads w2 with
        | None => None
        | Some w3 => Some (finish (daemon_wait_pid pid daemon_wait w3))
        end
  end.

(** [setting] is what [stress_get_setting("daemon-wait", ...)] finds. *)
Definition stress_daemon (setting : option bool) (forks reads : list (Z * Z))
    (w : world) : option (ending * world) :=
  let daemon_wait := default false setting in
  ask (rc, w1) <- stress_sig_stop_stressing SIGALRM w;
  if rc <? 0 then Some (returned EXIT_FAILURE, w1) else
  ask (p, w2) <- pipe w1;
  if pipe_rc p <? 0 then
    Some (returned EXIT_FAILURE, pr_fail pipe_failed (pipe_errno p) w2)
  else
    let w3 := stress_set_proc_state STRESS_STATE_RUN w2 in
    again daemon_wait (pipe_rd p) (pipe_wr p) forks reads w3.

End Stressor.

(** A stressor process as the harness starts it: the three standard
    descriptors open, nothing counted, nothing logged. *)
Definition boot (keep redo : list bool) (rc : list Z)
    (pipes : list pipe_answer) : world :=
  World {[0; 1; 2]} ∅ 0 [] keep redo rc pipes.

(** Linux on x86-64. *)
Definition linux : Platform :=
  {| EINTR := 4; EAGAIN := 11; ENOMEM := 12; EPIPE := 32;
     SIGALRM := 14; SIGPIPE := 13;
     NSIG := Some 65; _NSIG := Some 65; HAVE_CLEARENV := true |}.

(** ** Reading the log *)

(** The delays slept, in order. *)
Definition sleeps (l : list action) : list Z :=
  flat_map (fun a => match a with a_usleep d => [d] | _ => [] end) l.

(** The bytes that reached the pipe, in order. *)
Definition sent_bytes (l : list action) : list Z :=
  flat_map (fun a => match a with a_write _ s => s | _ => [] end) l.

(** The return values of the calls of [fork], in order. *)
Definition fork_results (l : list action) : list Z :=
  flat_map (fun a => match a with a_fork pid => [pid] | _ => [] end) l.

(** The return values of the calls of [read], in order. *)
Definition read_results (l : list action) : list Z :=
  flat_map (fun a => match a with a_read _ n => [n] | _ => [] end) l.

(** How many of these return values of [read] report no failure. *)
Definition not_failed (ns : list Z) : Z :=
  Z.of_nat (length (List.filter (fun n => 0 <=? n) ns)).

(** What the variable [backoff] of [daemons] holds after [k] updates. *)
Definition backoff_after (k : nat) : Z := Nat.iter k next_backoff 100.

(** A [fork] answer that the spawning loop takes for a passing shortage. *)
Definition transient `{Platform} (answer : Z * Z) : Prop :=
  fst answer < 0 /\ (snd answer = EAGAIN \/ snd answer = ENOMEM).

(** The log of a run of failed forks, each followed by its sleep, the first
    one after [k] updates of the delay. *)
Fixpoint shortage_log (fails : list (Z * Z)) (k : nat) : list action :=
  match fails with
  | [] => []
  | answer :: fails1 =>
      a_fork (fst answer) :: a_usleep (backoff_after k)
      :: shortage_log fails1 (S k)
  end.

(** The world an initialisation of [daemons] ends in. *)
Definition init_world (r : init_result) : world :=
  match r with
  | init_aborted w => w
  | init_ready _ w => w
  end.

(** A Worker right after the Orchestrator's fork, holding the write end 4. *)
Definition worker_start (keep : list bool) (rc : list Z) : world :=
  World {[0; 1; 2; 4]} {[14 := STOP_HANDLER]} 0 [] keep [] rc [].

Definition ready_or (w : world) (r : option init_result) : world :=
  match r with
  | Some r1 => init_world r1
  | None => w
  end.

(** The pipe every example uses: read end 3, write end 4. *)
Definition pipe_3_4 : pipe_answer := PipeAnswer 0 0 3 4.


(** The pids waited for, in order. *)
Definition waited (l : list action) : list Z :=
  flat_map (fun a => match a with a_waitpid pid => [pid] | _ => [] end) l.

(** The writes made, in order: the descriptor and the bytes that got
    through. *)
Definition writes (l : list action) : list (Z * list Z) :=
  flat_map (fun a => match a with a_write fd s => [(fd, s)] | _ => [] end) l.

(** ** The [daemon-wait] option *)

(** Modelled from the spec: the harness keeps the settings ("an
    option-registration mechanism exposing a single boolean setting
    [daemon-wait], defaulting to false, settable via a named flag");
    [stress_set_setting] and [stress_get_setting] are not defined in
    [stress-daemon.c].  Looking a setting up finds the value it has, if it
    has one. *)
Definition stress_get_setting (name : string) (settings : gmap string bool)
    : option bool :=
  settings !! name.

(** The shape of [stress_set_setting]: from a name, a value and the settings
    to a status and the settings after the call. *)
Definition setter : Type :=
  string -> bool -> gmap string bool -> Z * gmap string bool.

(** Modelled from the spec: a [stress_set_setting] that keeps the value under
    the name and returns the status [rc]. *)
Definition stress_set_setting (rc : Z) : setter :=
  fun name value settings => (rc, <[name := value]> settings).

(** [stress_daemon_set_daemon_wait]: the handler of the option; [opt] is the
    text given with it, [set_setting] the harness's [stress_set_setting]. *)
Definition stress_daemon_set_daemon_wait (set_setting : setter) (opt : string)
    (settings : gmap string bool) : Z * gmap string bool :=
  let daemon_wait := true in
  set_setting "daemon-wait" daemon_wait settings.

(** [stress_daemon] as the harness calls it, the settings at hand. *)
Definition stress_daemon_with `{Platform} (settings : gmap string bool)
    (forks reads : list (Z * Z)) (w : world) : option (ending * world) :=
  stress_daemon (stress_get_setting "daemon-wait" settings) forks reads w.

(** What a run ends in, or [w] if the answers ran out. *)
Definition ended_or {A : Type} (w : A) (run : option A) : A := default w run.

(** The actions of the initialisation of [daemons]. *)
Definition init_action (a : action) : Prop :=
  a = a_setsid \/ a = a_sigprocmask_empty \/ a = a_clearenv.

(** ** Runs, round by round *)

(** The runs of the spawning loop that come to an end: from a delay, the
    [fork] answers still to come and a world, to the fate of the process.  One
    rule for each way a round can go. *)
Inductive loop_run `{Platform} (fd : Z) (daemon_wait : bool)
    (fds : Z * Z * Z) : Z -> list (Z * Z) -> world -> fate -> Prop :=
| run_stopped backoff forks w kq :
    keep_q w = false :: kq ->
    loop_run fd daemon_wait fds backoff forks w
      (alive (tidy fds (with_keep_q kq w)))
| run_transient backoff answer forks w kq f :
    keep_q w = true :: kq ->
    transient answer ->
    loop_run fd daemon_wait fds (next_backoff backoff) forks
      (World (open_fds w) (sig_table w) (counter w)
             (log w ++ [a_fork (fst answer); a_usleep backoff])
             kq (redo_q w) (rc_q w) (pipe_q w)) f ->
    loop_run fd daemon_wait fds backoff (answer :: forks) w f
| run_fatal backoff pid errno forks w kq :
    keep_q w = true :: kq ->
    pid < 0 -> errno <> EAGAIN -> errno <> ENOMEM ->
    loop_run fd daemon_wait fds backoff ((pid, errno) :: forks) w
      (alive (tidy fds (did (a_fork pid) (with_keep_q kq w))))
| run_parent backoff pid errno forks w kq :
    keep_q w = true :: kq ->
    0 < pid ->
    loop_run fd daemon_wait fds backoff ((pid, errno) :: forks) w
      (alive (tidy fds (daemon_wait_pid pid daemon_wait
                          (did (a_fork pid) (with_keep_q kq w)))))
| run_child_written backoff errno forks w kq rc rq f :
    keep_q w = true :: kq ->
    rc_q w = rc :: 1 :: rq ->
    0 <= rc ->
    loop_run fd daemon_wait fds backoff forks
      (World (open_fds w) (sig_table w) (counter w)
             (log w ++ [a_fork 0; a_chdir_root; a_umask 0;
                        a_drop_capabilities; a_write fd [255]])
             kq (redo_q w) rq (pipe_q w)) f ->
    loop_run fd daemon_wait fds backoff ((0, errno) :: forks) w f
| run_child_chdir_fails backoff errno forks w kq rc rq :
    keep_q w = true :: kq ->
    rc_q w = rc :: rq ->
    rc < 0 ->
    loop_run fd daemon_wait fds backoff ((0, errno) :: forks) w
      (alive (err2 fd fds
         (World (open_fds w) (sig_table w) (counter w)
                (log w ++ [a_fork 0; a_chdir_root])
                kq (redo_q w) rq (pipe_q w))))
| run_child_write_short backoff errno forks w kq rc sz rq :
    keep_q w = true :: kq ->
    rc_q w = rc :: sz :: rq ->
    0 <= rc ->
    0 <= sz ->
    sz <> 1 ->
    loop_run fd daemon_wait fds backoff ((0, errno) :: forks) w
      (alive (err2 fd fds
         (World (open_fds w) (sig_table w) (counter w)
                (log w ++ [a_fork 0; a_chdir_root; a_umask 0;
                           a_drop_capabilities;
                           a_write fd (firstn (Z.to_nat sz) [255])])
                kq (redo_q w) rq (pipe_q w))))
| run_child_write_fails backoff errno forks w kq rc sz e rq :
    keep_q w = true :: kq ->
    rc_q w = rc :: sz :: e :: rq ->
    0 <= rc ->
    sz < 0 ->
    ~ (e = EPIPE /\ disposition_of SIGPIPE w = SIG_DFL) ->
    loop_run fd daemon_wait fds backoff ((0, errno) :: forks) w
      (alive (err2 fd fds
         (World (open_fds w) (sig_table w) (counter w)
                (log w ++ [a_fork 0; a_chdir_root; a_umask 0;
                           a_drop_capabilities; a_write fd []])
                kq (redo_q w) rq (pipe_q w))))
| run_child_killed backoff errno forks w kq rc sz rq :
    keep_q w = true :: kq ->
    rc_q w = rc :: sz :: EPIPE :: rq ->
    0 <= rc ->
    sz < 0 ->
    disposition_of SIGPIPE w = SIG_DFL ->
    loop_run fd daemon_wait fds backoff ((0, errno) :: forks) w
      (killed SIGPIPE
         (World (open_fds w) (sig_table w) (counter w)
                (log w ++ [a_fork 0; a_chdir_root; a_umask 0;
                           a_drop_capabilities; a_write fd []])
                kq (redo_q w) rq (pipe_q w))).

(** * Properties *)

(** ** Proof steps *)

(** Unfold the field updates. *)
Ltac fields :=
  unfold with_open, with_sig, with_counter, did, with_keep_q, with_redo_q,
    with_rc_q, with_pipe_q;
  cbn [open_fds sig_table counter log keep_q redo_q rc_q pipe_q fst snd].

Ltac fields_in H :=
  unfold with_open, with_sig, with_counter, did, with_keep_q, with_redo_q,
    with_rc_q, with_pipe_q in H;
  cbn [open_fds sig_table counter log keep_q redo_q rc_q pipe_q fst snd] in H.

(** Membership in a set that is given in full. *)
Ltac by_computing :=
  match goal with
  | |- ?P => apply (bool_decide_unpack P); vm_compute; exact I
  end.

Lemma sleeps_app l1 l2 : sleeps (l1 ++ l2) = sleeps l1 ++ sleeps l2.
Proof. apply flat_map_app. Qed.

Lemma sent_bytes_app l1 l2 : sent_bytes (l1 ++ l2) = sent_bytes l1 ++ sent_bytes l2.
Proof. apply flat_map_app. Qed.

Lemma fork_results_app l1 l2 :
  fork_results (l1 ++ l2) = fork_results l1 ++ fork_results l2.
Proof. apply flat_map_app. Qed.

Lemma read_results_app l1 l2 :
  read_results (l1 ++ l2) = read_results l1 ++ read_results l2.
Proof. apply flat_map_app. Qed.

Lemma waited_app l1 l2 : waited (l1 ++ l2) = waited l1 ++ waited l2.
Proof. apply flat_map_app. Qed.

Lemma writes_app l1 l2 : writes (l1 ++ l2) = writes l1 ++ writes l2.
Proof. apply flat_map_app. Qed.

(** ** The backoff *)

Lemma next_backoff_min d :
  0 <= d <= MAX_BACKOFF -> next_backoff d = Z.min (d + 100) MAX_BACKOFF.
Proof.
  intros Hd. unfold next_backoff, u64, MAX_BACKOFF in *.
  rewrite Z.mod_small by lia.
  destruct (Z.gtb_spec (d + 100) 10000); lia.
Qed.

Lemma backoff_after_closed k :
  backoff_after k = Z.min (100 * (Z.of_nat k + 1)) MAX_BACKOFF.
Proof.
  induction k as [|k IH].
  - reflexivity.
  - change (backoff_after (S k)) with (next_backoff (backoff_after k)).
    rewrite IH, next_backoff_min; unfold MAX_BACKOFF; lia.
Qed.


(** ** One round of the spawning loop, case by case *)

Section Rounds.
Context `{Platform}.
Variables (fd : Z) (daemon_wait : bool) (fds : Z * Z * Z).

Lemma daemons_loop_eq backoff forks w :
  daemons_loop fd daemon_wait fds backoff forks w =
  ask (keep, w1) <- keep_stressing_flag w;
  if negb keep then Some (alive (tidy fds w1)) else
  match forks with
  | [] => None
  | (pid, errno) :: forks1 =>
      let w2 := did (a_fork pid) w1 in
      if pid <? 0 then
        if (errno =? EAGAIN) || (errno =? ENOMEM) then
          let w3 := shim_usleep_interruptible backoff w2 in
          daemons_loop fd daemon_wait fds (next_backoff backoff) forks1 w3
        else Some (alive (tidy fds w2))
      else if pid =? 0 then
        let buf := [255] in
        ask (rc, w3) <- chdir_root w2;
        if rc <? 0 then Some (alive (err2 fd fds w3)) else
        let w4 := did (a_umask 0) w3 in
        let w5 := did a_drop_capabilities w4 in
        match write fd buf w5 with
        | None => None
        | Some (write_killed sig w6) => Some (killed sig w6)
        | Some (write_returns sz w6) =>
            if negb (sz =? Z.of_nat (length buf))
            then Some (alive (err2 fd fds w6))
            else daemons_loop fd daemon_wait fds backoff forks1 w6
        end
      else
        Some (alive (tidy fds (daemon_wait_pid pid daemon_wait w2)))
  end.
Proof. destruct forks; reflexivity. Qed.

(** The flag is down: the loop is left for [tidy]. *)
Lemma round_stopped backoff forks w kq :
  keep_q w = false :: kq ->
  daemons_loop fd daemon_wait fds backoff forks w
  = Some (alive (tidy fds (with_keep_q kq w))).
Proof.
  intros Hk. rewrite daemons_loop_eq.
  unfold keep_stressing_flag, next_keep. now rewrite Hk.
Qed.

(** [fork] fails for want of pids or memory: sleep, lengthen the delay, go
    round again. *)
Lemma round_transient backoff answer forks w kq :
  keep_q w = true :: kq ->
  transient answer ->
  daemons_loop fd daemon_wait fds backoff (answer :: forks) w
  = daemons_loop fd daemon_wait fds (next_backoff backoff) forks
      (World (open_fds w) (sig_table w) (counter w)
             (log w ++ [a_fork (fst answer); a_usleep backoff])
             kq (redo_q w) (rc_q w) (pipe_q w)).
Proof.
  intros Hk [Hpid Herr]. destruct answer as [pid errno]. cbn [fst snd] in *.
  rewrite daemons_loop_eq.
  unfold keep_stressing_flag, next_keep. rewrite Hk. cbn [negb].
  destruct (Z.ltb_spec pid 0); [|lia].
  assert ((errno =? EAGAIN) || (errno =? ENOMEM) = true) as ->.
  { destruct Herr as [-> | ->]; rewrite Z.eqb_refl;
      [reflexivity | apply orb_true_r]. }
  unfold shim_usleep_interruptible. fields.
  now rewrite <- app_assoc.
Qed.

(** [fork] fails for another reason: the loop is left for [tidy]. *)
Lemma round_fatal backoff pid errno forks w kq :
  keep_q w = true :: kq ->
  pid < 0 -> errno <> EAGAIN -> errno <> ENOMEM ->
  daemons_loop fd daemon_wait fds backoff ((pid, errno) :: forks) w
  = Some (alive (tidy fds (did (a_fork pid) (with_keep_q kq w)))).
Proof.
  intros Hk Hpid He1 He2. rewrite daemons_loop_eq.
  unfold keep_stressing_flag, next_keep. rewrite Hk. cbn [negb].
  destruct (Z.ltb_spec pid 0); [|lia].
  destruct (Z.eqb_spec errno EAGAIN); [contradiction|].
  destruct (Z.eqb_spec errno ENOMEM); [contradiction|].
  reflexivity.
Qed.

(** [fork] succeeds, seen from the caller: wait if asked to, then [break]. *)
Lemma round_parent backoff pid errno forks w kq :
  keep_q w = true :: kq ->
  0 < pid ->
  daemons_loop fd daemon_wait fds backoff ((pid, errno) :: forks) w
  = Some (alive (tidy fds (daemon_wait_pid pid daemon_wait
                             (did (a_fork pid) (with_keep_q kq w))))).
Proof.
  intros Hk Hpid. rewrite daemons_loop_eq.
  unfold keep_stressing_flag, next_keep. rewrite Hk. cbn [negb].
  destruct (Z.ltb_spec pid 0); [lia|].
  destruct (Z.eqb_spec pid 0); [lia|].
  reflexivity.
Qed.

(** [fork] succeeds, seen from the new process, which gets its sentinel
    through: it goes round the loop again. *)
Lemma round_child_written backoff errno forks w kq rc rq :
  keep_q w = true :: kq ->
  rc_q w = rc :: 1 :: rq ->
  0 <= rc ->
  daemons_loop fd daemon_wait fds backoff ((0, errno) :: forks) w
  = daemons_loop fd daemon_wait fds backoff forks
      (World (open_fds w) (sig_table w) (counter w)
             (log w ++ [a_fork 0; a_chdir_root; a_umask 0;
                        a_drop_capabilities; a_write fd [255]])
             kq (redo_q w) rq (pipe_q w)).
Proof.
  intros Hk Hrc Hok. rewrite daemons_loop_eq.
  unfold keep_stressing_flag, next_keep. rewrite Hk. cbn [negb].
  cbn [Z.ltb Z.eqb Z.compare].
  unfold chdir_root, write, next_rc. fields. rewrite Hrc. fields.
  destruct (Z.ltb_spec rc 0); [lia|]. fields.
  cbn [length Z.of_nat Pos.of_succ_nat Z.eqb Pos.eqb negb Z.to_nat
       Pos.to_nat Pos.iter_op firstn Z.ltb Z.compare].
  now rewrite <- !app_assoc.
Qed.

(** The new process cannot change to the root directory: it gives up. *)
Lemma round_child_chdir_fails backoff errno forks w kq rc rq :
  keep_q w = true :: kq ->
  rc_q w = rc :: rq ->
  rc < 0 ->
  daemons_loop fd daemon_wait fds backoff ((0, errno) :: forks) w
  = Some (alive (err2 fd fds
      (World (open_fds w) (sig_table w) (counter w)
             (log w ++ [a_fork 0; a_chdir_root])
             kq (redo_q w) rq (pipe_q w)))).
Proof.
  intros Hk Hrc Hok. rewrite daemons_loop_eq.
  unfold keep_stressing_flag, next_keep. rewrite Hk. cbn [negb].
  cbn [Z.ltb Z.eqb Z.compare].
  unfold chdir_root, next_rc. fields. rewrite Hrc. fields.
  destruct (Z.ltb_spec rc 0); [|lia].
  now rewrite <- !app_assoc.
Qed.

(** [write] returns, but not 1, and reports no failure: the new process gives
    up. *)
Lemma round_child_write_short backoff errno forks w kq rc sz rq :
  keep_q w = true :: kq ->
  rc_q w = rc :: sz :: rq ->
  0 <= rc ->
  0 <= sz ->
  sz <> 1 ->
  daemons_loop fd daemon_wait fds backoff ((0, errno) :: forks) w
  = Some (alive (err2 fd fds
      (World (open_fds w) (sig_table w) (counter w)
             (log w ++ [a_fork 0; a_chdir_root; a_umask 0;
                        a_drop_capabilities;
                        a_write fd (firstn (Z.to_nat sz) [255])])
             kq (redo_q w) rq (pipe_q w)))).
Proof.
  intros Hk Hrc Hok Hsz0 Hsz. rewrite daemons_loop_eq.
  unfold keep_stressing_flag, next_keep. rewrite Hk. cbn [negb].
  cbn [Z.ltb Z.eqb Z.compare].
  unfold chdir_root, write, next_rc. fields. rewrite Hrc. fields.
  destruct (Z.ltb_spec rc 0); [lia|]. fields.
  destruct (Z.ltb_spec sz 0); [lia|].
  change (Z.of_nat (length [255])) with 1.
  destruct (Z.eqb_spec sz 1); [contradiction|]. cbn [negb].
  now rewrite <- !app_assoc.
Qed.

(** [write] fails and returns: the new process gives up. *)
Lemma round_child_write_fails backoff errno forks w kq rc sz e rq :
  keep_q w = true :: kq ->
  rc_q w = rc :: sz :: e :: rq ->
  0 <= rc ->
  sz < 0 ->
  ~ (e = EPIPE /\ disposition_of SIGPIPE w = SIG_DFL) ->
  daemons_loop fd daemon_wait fds backoff ((0, errno) :: forks) w
  = Some (alive (err2 fd fds
      (World (open_fds w) (sig_table w) (counter w)
             (log w ++ [a_fork 0; a_chdir_root; a_umask 0;
                        a_drop_capabilities; a_write fd []])
             kq (redo_q w) rq (pipe_q w)))).
Proof.
  intros Hk Hrc Hok Hsz Hnot. rewrite daemons_loop_eq.
  unfold keep_stressing_flag, next_keep. rewrite Hk. cbn [negb].
  cbn [Z.ltb Z.eqb Z.compare].
  unfold chdir_root, write, next_rc. fields. rewrite Hrc. fields.
  destruct (Z.ltb_spec rc 0); [lia|]. fields.
  destruct (Z.ltb_spec sz 0); [|lia]. fields.
  replace (Z.to_nat sz) with 0%nat by lia. cbn [firstn].
  change (Z.of_nat (length [255])) with 1.
  unfold disposition_of in *. fields.
  destruct (Z.eqb_spec e EPIPE) as [He|He].
  - destruct (default SIG_DFL (sig_table w !! SIGPIPE)) eqn:Hd.
    + exfalso. apply Hnot. now split.
    + destruct (Z.eqb_spec sz 1); [lia|]. cbn [negb].
      now rewrite <- !app_assoc.
  - destruct (Z.eqb_spec sz 1); [lia|]. cbn [negb].
    now rewrite <- !app_assoc.
Qed.

(** Nobody is left to read and SIGPIPE has its default action: the new
    process is ended inside [write]. *)
Lemma round_child_killed backoff errno forks w kq rc sz rq :
  keep_q w = true :: kq ->
  rc_q w = rc :: sz :: EPIPE :: rq ->
  0 <= rc ->
  sz < 0 ->
  disposition_of SIGPIPE w = SIG_DFL ->
  daemons_loop fd daemon_wait fds backoff ((0, errno) :: forks) w
  = Some (killed SIGPIPE
      (World (open_fds w) (sig_table w) (counter w)
             (log w ++ [a_fork 0; a_chdir_root; a_umask 0;
                        a_drop_capabilities; a_write fd []])
             kq (redo_q w) rq (pipe_q w))).
Proof.
  intros Hk Hrc Hok Hsz Hd. rewrite daemons_loop_eq.
  unfold keep_stressing_flag, next_keep. rewrite Hk. cbn [negb].
  cbn [Z.ltb Z.eqb Z.compare].
  unfold chdir_root, write, next_rc. fields. rewrite Hrc. fields.
  destruct (Z.ltb_spec rc 0); [lia|]. fields.
  destruct (Z.ltb_spec sz 0); [|lia]. fields.
  replace (Z.to_nat sz) with 0%nat by lia. cbn [firstn].
  unfold disposition_of in *. fields.
  rewrite Z.eqb_refl, Hd.
  now rewrite <- !app_assoc.
Qed.

End Rounds.

(** ** The spawning loop and its runs *)

Section Runs.
Context `{Platform}.
Variables (fd : Z) (daemon_wait : bool) (fds : Z * Z * Z).

(** Every run of the loop that comes to an end is built from the rules. *)
Lemma loop_run_complete forks : forall backoff w f,
  daemons_loop fd daemon_wait fds backoff forks w = Some f ->
  loop_run fd daemon_wait fds backoff forks w f.
Proof.
  induction forks as [|[pid errno] forks IH]; intros backoff w f Hrun.
  - destruct (keep_q w) as [|[|] kq] eqn:Hk.
    + rewrite daemons_loop_eq in Hrun.
      unfold keep_stressing_flag, next_keep in Hrun. now rewrite Hk in Hrun.
    + rewrite daemons_loop_eq in Hrun.
      unfold keep_stressing_flag, next_keep in Hrun. now rewrite Hk in Hrun.
    + rewrite (round_stopped _ _ _ _ _ _ _ Hk) in Hrun.
      injection Hrun as <-. now constructor.
  - destruct (keep_q w) as [|[|] kq] eqn:Hk.
    + rewrite daemons_loop_eq in Hrun.
      unfold keep_stressing_flag, next_keep in Hrun. now rewrite Hk in Hrun.
    + destruct (Z.lt_trichotomy pid 0) as [Hneg | [-> | Hpos]].
      * destruct (Z.eq_dec errno EAGAIN) as [He1|He1];
          [|destruct (Z.eq_dec errno ENOMEM) as [He2|He2]].
        -- assert (transient (pid, errno)) as Ht by (split; [exact Hneg | now left]).
           rewrite (round_transient _ _ _ _ _ _ _ _ Hk Ht) in Hrun.
           apply IH in Hrun. now apply run_transient with kq.
        -- assert (transient (pid, errno)) as Ht by (split; [exact Hneg | now right]).
           rewrite (round_transient _ _ _ _ _ _ _ _ Hk Ht) in Hrun.
           apply IH in Hrun. now apply run_transient with kq.
        -- rewrite (round_fatal _ _ _ _ _ _ _ _ _ Hk Hneg He1 He2) in Hrun.
           injection Hrun as <-. now constructor.
      * destruct (rc_q w) as [|rc rq] eqn:Hrc.
        { rewrite daemons_loop_eq in Hrun.
          unfold keep_stressing_flag, next_keep, chdir_root, next_rc in Hrun.
          rewrite Hk in Hrun. fields_in Hrun. now rewrite Hrc in Hrun. }
        destruct (Z.lt_ge_cases rc 0) as [Hrcneg|Hrcok].
        { rewrite (round_child_chdir_fails _ _ _ _ _ _ _ _ _ _ Hk Hrc Hrcneg)
            in Hrun.
          injection Hrun as <-. eapply run_child_chdir_fails; eassumption. }
        destruct rq as [|sz rq].
        { rewrite daemons_loop_eq in Hrun.
          unfold keep_stressing_flag, next_keep, chdir_root, write, next_rc
            in Hrun.
          rewrite Hk in Hrun. fields_in Hrun. rewrite Hrc in Hrun.
          fields_in Hrun. destruct (Z.ltb_spec rc 0); [lia|].
          fields_in Hrun. discriminate. }
        destruct (Z.lt_ge_cases sz 0) as [Hszneg|Hszok].
        -- destruct rq as [|e rq].
           { rewrite daemons_loop_eq in Hrun.
             unfold keep_stressing_flag, next_keep, chdir_root, write, next_rc
               in Hrun.
             rewrite Hk in Hrun. fields_in Hrun. rewrite Hrc in Hrun.
             fields_in Hrun. destruct (Z.ltb_spec rc 0); [lia|].
             fields_in Hrun. destruct (Z.ltb_spec sz 0); [|lia].
             fields_in Hrun. discriminate. }
           destruct (Z.eq_dec e EPIPE) as [->|He];
             [destruct (disposition_of SIGPIPE w) eqn:Hd|].
           ++ rewrite (round_child_killed _ _ _ _ _ _ _ _ _ _ _
                         Hk Hrc Hrcok Hszneg Hd) in Hrun.
              injection Hrun as <-. eapply run_child_killed; eassumption.
           ++ rewrite (round_child_write_fails _ _ _ _ _ _ _ _ _ _ _ _
                         Hk Hrc Hrcok Hszneg) in Hrun
                by (intros [_ Hd']; congruence).
              injection Hrun as <-. eapply run_child_write_fails; try eassumption.
              intros [_ Hd']; congruence.
           ++ rewrite (round_child_write_fails _ _ _ _ _ _ _ _ _ _ _ _
                         Hk Hrc Hrcok Hszneg) in Hrun
                by (intros [He' _]; congruence).
              injection Hrun as <-. eapply run_child_write_fails; try eassumption.
              intros [He' _]; congruence.
        -- destruct (Z.eq_dec sz 1) as [->|Hsz].
           ++ rewrite (round_child_written _ _ _ _ _ _ _ _ _ _ Hk Hrc Hrcok)
                in Hrun.
              apply IH in Hrun. now apply run_child_written with kq rc rq.
           ++ rewrite (round_child_write_short _ _ _ _ _ _ _ _ _ _ _
                         Hk Hrc Hrcok Hszok Hsz) in Hrun.
              injection Hrun as <-. eapply run_child_write_short; eassumption.
      * rewrite (round_parent _ _ _ _ _ _ _ _ _ Hk Hpos) in Hrun.
        injection Hrun as <-. now constructor.
    + rewrite (round_stopped _ _ _ _ _ _ _ Hk) in Hrun.
      injection Hrun as <-. now constructor.
Qed.

(** And the rules build nothing else. *)
Lemma loop_run_sound backoff forks w f :
  loop_run fd daemon_wait fds backoff forks w f ->
  daemons_loop fd daemon_wait fds backoff forks w = Some f.
Proof.
  induction 1.
  - now apply round_stopped.
  - now rewrite (round_transient _ _ _ _ _ _ _ kq).
  - now apply round_fatal.
  - now apply round_parent.
  - now rewrite (round_child_written _ _ _ _ _ _ _ kq rc rq).
  - eapply round_child_chdir_fails; eassumption.
  - eapply round_child_write_short; eassumption.
  - eapply round_child_write_fails; eassumption.
  - eapply round_child_killed; eassumption.
Qed.

End Runs.

(** ** Closed descriptors *)

Lemma closed_now (x : Z) (s : gset Z) : x ∉ s ∖ {[x]}.
Proof.
  intros Hx. apply elem_of_difference in Hx as [_ Hx].
  apply Hx. now apply elem_of_singleton.
Qed.

Lemma closed_before (x y : Z) (s : gset Z) : x ∉ s -> x ∉ s ∖ {[y]}.
Proof.
  intros Hs Hx. apply elem_of_difference in Hx as [Hx _]. now apply Hs.
Qed.

Ltac closed := repeat first [apply closed_now | apply closed_before].

(** ** What the exit labels leave untouched *)

Lemma log_tidy fds w : log (tidy fds w) = log w.
Proof. destruct fds as [[a b] c]. reflexivity. Qed.

Lemma log_err2 fd fds w : log (err2 fd fds w) = log w.
Proof. destruct fds as [[a b] c]. reflexivity. Qed.

Lemma sig_table_tidy fds w : sig_table (tidy fds w) = sig_table w.
Proof. destruct fds as [[a b] c]. reflexivity. Qed.

Lemma sig_table_err2 fd fds w : sig_table (err2 fd fds w) = sig_table w.
Proof. destruct fds as [[a b] c]. reflexivity. Qed.

Lemma counter_tidy fds w : counter (tidy fds w) = counter w.
Proof. destruct fds as [[a b] c]. reflexivity. Qed.

Lemma counter_err2 fd fds w : counter (err2 fd fds w) = counter w.
Proof. destruct fds as [[a b] c]. reflexivity. Qed.

Lemma open_fds_tidy fds0 fds1 fds2 w :
  open_fds (tidy (fds0, fds1, fds2) w)
  = open_fds w ∖ {[fds2]} ∖ {[fds1]} ∖ {[fds0]}.
Proof. reflexivity. Qed.

Lemma open_fds_err2 fd fds0 fds1 fds2 w :
  open_fds (err2 fd (fds0, fds1, fds2) w)
  = open_fds w ∖ {[fds2]} ∖ {[fds1]} ∖ {[fds0]} ∖ {[fd]}.
Proof. reflexivity. Qed.

Lemma log_daemon_wait_pid pid dw w :
  log (daemon_wait_pid pid dw w)
  = log w ++ (if dw then [a_waitpid pid] else []).
Proof. destruct dw; [reflexivity | symmetry; apply app_nil_r]. Qed.

(** ** The delays of a run of shortages *)

Lemma sleeps_shortage_log fails k :
  sleeps (shortage_log fails k) = map backoff_after (seq k (length fails)).
Proof.
  revert k. induction fails as [|a fails IH]; intros k; [reflexivity|].
  cbn [shortage_log length seq map]. rewrite <- IH. reflexivity.
Qed.

Lemma fork_results_shortage_log fails k :
  fork_results (shortage_log fails k) = map fst fails.
Proof.
  revert k. induction fails as [|a fails IH]; intros k; [reflexivity|].
  cbn [shortage_log map]. cbn. now rewrite IH.
Qed.

Section Shortage.
Context `{Platform}.
Variables (fd : Z) (daemon_wait : bool) (fds : Z * Z * Z).

Lemma shortage_run fails : forall k rest w kq,
  Forall transient fails ->
  keep_q w = repeat true (length fails) ++ kq ->
  daemons_loop fd daemon_wait fds (backoff_after k) (fails ++ rest) w
  = daemons_loop fd daemon_wait fds (backoff_after (length fails + k)) rest
      (World (open_fds w) (sig_table w) (counter w)
             (log w ++ shortage_log fails k)
             kq (redo_q w) (rc_q w) (pipe_q w)).
Proof.
  induction fails as [|a fails IH]; intros k rest w kq Hall Hk.
  - cbn [length repeat app shortage_log] in *. rewrite app_nil_r.
    destruct w; cbn in *; now subst.
  - apply Forall_cons_iff in Hall as [Ha Hall].
    cbn [length repeat app] in Hk |- *.
    rewrite (round_transient _ _ _ _ _ _ _ _ Hk Ha).
    change (next_backoff (backoff_after k)) with (backoff_after (S k)).
    rewrite (IH (S k) rest _ kq Hall); [|reflexivity]. fields.
    rewrite <- app_assoc. cbn [shortage_log app].
    now replace (length fails + S k)%nat with (S (length fails + k))%nat by lia.
Qed.

(** Whatever the followed process meets, the sleeps it adds to the log are
    consecutive values of the delay. *)
Lemma loop_run_sleeps backoff forks w f :
  loop_run fd daemon_wait fds backoff forks w f ->
  forall k, backoff = backoff_after k ->
  exists m,
    sleeps (log (image f)) = sleeps (log w) ++ map backoff_after (seq k m).
Proof.
  induction 1 as
    [ backoff forks w kq Hk
    | backoff answer forks w kq f Hk Ht _ IH
    | backoff pid errno forks w kq Hk Hpid He1 He2
    | backoff pid errno forks w kq Hk Hpid
    | backoff errno forks w kq rc rq f Hk Hrc Hok _ IH
    | backoff errno forks w kq rc rq Hk Hrc Hneg
    | backoff errno forks w kq rc sz rq Hk Hrc Hok Hsz0 Hsz
    | backoff errno forks w kq rc sz e rq Hk Hrc Hok Hsz Hnot
    | backoff errno forks w kq rc sz rq Hk Hrc Hok Hsz Hd ];
    intros k Hb; cbn [image]; rewrite ?log_tidy, ?log_err2,
      ?log_daemon_wait_pid; fields.
  - exists 0%nat. cbn. now rewrite app_nil_r.
  - subst backoff. destruct (IH (S k) eq_refl) as [m Hm]. exists (S m).
    rewrite Hm. fields. rewrite !sleeps_app, <- !app_assoc. reflexivity.
  - exists 0%nat. rewrite sleeps_app. reflexivity.
  - exists 0%nat. rewrite !sleeps_app.
    destruct daemon_wait; cbn; now rewrite !app_nil_r.
  - destruct (IH k Hb) as [m Hm]. exists m. rewrite Hm. fields.
    rewrite !sleeps_app. cbn. now rewrite !app_nil_r.
  - exists 0%nat. rewrite !sleeps_app. cbn. now rewrite !app_nil_r.
  - exists 0%nat. rewrite !sleeps_app. cbn. now rewrite !app_nil_r.
  - exists 0%nat. rewrite !sleeps_app. cbn. now rewrite !app_nil_r.
  - exists 0%nat. rewrite !sleeps_app. cbn. now rewrite !app_nil_r.
Qed.

Lemma loop_sleeps forks k w f :
  daemons_loop fd daemon_wait fds (backoff_after k) forks w = Some f ->
  exists m,
    sleeps (log (image f)) = sleeps (log w) ++ map backoff_after (seq k m).
Proof.
  intros Hrun. apply loop_run_complete in Hrun.
  now apply (loop_run_sleeps _ _ _ _ Hrun k).
Qed.

End Shortage.

(** C4.  The delay starts at 100 whenever [daemons] is entered.  Each fork
    that fails with EAGAIN or ENOMEM is followed by a sleep of the current
    delay, after which the delay becomes [min (delay + 100) 10000]: the delays
    slept never decrease, grow by exactly 100 while below 10000, and never
    exceed 10000.  A run of shortages right after entry leaves the loop at the
    next delay (first part); if the flag then goes down, or the next fork
    succeeds, [daemons] returns having slept exactly these delays (second and
    third part); and along every path the invocation can take the delays
    slept are the first ones of this sequence (last part). *)
Theorem backoff_schedule `{Platform} (fd : Z) (daemon_wait : bool)
    (fds : Z * Z * Z) (w0 w : world) (fails rest : list (Z * Z))
    (kq : list bool) :
  daemons_init fd w0 = Some (init_ready fds w) ->
  Forall transient fails ->
  keep_q w = repeat true (length fails) ++ kq ->
  daemons fd daemon_wait (fails ++ rest) w0
  = daemons_loop fd daemon_wait fds (backoff_after (length fails)) rest
      (World (open_fds w) (sig_table w) (counter w)
             (log w ++ shortage_log fails 0)
             kq (redo_q w) (rc_q w) (pipe_q w))
  /\ (forall kq1,
        kq = false :: kq1 ->
        exists w',
          daemons fd daemon_wait (fails ++ rest) w0 = Some (alive w')
          /\ log w' = log w ++ shortage_log fails 0
          /\ sleeps (log w')
             = sleeps (log w) ++ map backoff_after (seq 0 (length fails)))
  /\ (forall pid errno rest1 kq1,
        kq = true :: kq1 ->
        rest = (pid, errno) :: rest1 ->
        0 < pid ->
        exists w',
          daemons fd daemon_wait (fails ++ rest) w0 = Some (alive w')
          /\ fork_results (log w')
             = fork_results (log w) ++ map fst fails ++ [pid]
          /\ sleeps (log w')
             = sleeps (log w) ++ map backoff_after (seq 0 (length fails)))
  /\ sleeps (shortage_log fails 0) = map backoff_after (seq 0 (length fails))
  /\ backoff_after 0 = 100
  /\ (forall d, 0 <= d <= 10000 -> next_backoff d = Z.min (d + 100) 10000)
  /\ (forall k,
        backoff_after (S k) = next_backoff (backoff_after k)
        /\ backoff_after (S k) = Z.min (backoff_after k + 100) 10000
        /\ backoff_after k <= backoff_after (S k) <= 10000
        /\ (backoff_after k < 10000 ->
            backoff_after (S k) = backoff_after k + 100))
  /\ (forall forks f,
        daemons fd daemon_wait forks w0 = Some f ->
        exists m,
          sleeps (log (image f))
          = sleeps (log w) ++ map backoff_after (seq 0 m)).
Proof.
  intros Hinit Hfails Hkeep.
  assert (daemons fd daemon_wait (fails ++ rest) w0
          = daemons_loop fd daemon_wait fds (backoff_after (length fails)) rest
              (World (open_fds w) (sig_table w) (counter w)
                     (log w ++ shortage_log fails 0)
                     kq (redo_q w) (rc_q w) (pipe_q w))) as Hrun.
  { unfold daemons. rewrite Hinit.
    change 100 with (backoff_after 0).
    rewrite (shortage_run fd daemon_wait fds fails 0%nat rest w kq Hfails Hkeep).
    now rewrite Nat.add_0_r. }
  split; [exact Hrun|]. split; [|split].
  - intros kq1 ->. rewrite Hrun.
    rewrite (round_stopped _ _ _ _ _ _ kq1) by reflexivity.
    eexists. split; [reflexivity|]. rewrite log_tidy. fields.
    split; [reflexivity|]. now rewrite sleeps_app, sleeps_shortage_log.
  - intros pid errno rest1 kq1 -> -> Hpid. rewrite Hrun.
    rewrite (round_parent _ _ _ _ _ _ _ _ kq1) by (try reflexivity; exact Hpid).
    eexists. split; [reflexivity|].
    rewrite log_tidy, log_daemon_wait_pid. fields.
    rewrite !sleeps_app, !fork_results_app, sleeps_shortage_log,
      fork_results_shortage_log.
    destruct daemon_wait; cbn; rewrite ?app_nil_r, <- ?app_assoc; now split.
  - repeat split.
    + apply sleeps_shortage_log.
    + intros d Hd. now apply next_backoff_min.
    + rewrite !backoff_after_closed. unfold MAX_BACKOFF. lia.
    + rewrite !backoff_after_closed. unfold MAX_BACKOFF. lia.
    + rewrite !backoff_after_closed. unfold MAX_BACKOFF. lia.
    + rewrite !backoff_after_closed. unfold MAX_BACKOFF. lia.
    + intros forks f. unfold daemons. rewrite Hinit.
      change 100 with (backoff_after 0). apply loop_sleeps.
Qed.

Lemma backoff_schedule_witness :
  let w0 := worker_start [true; true; true] [0; 0; 0; 1; 2] in
  exists w',
    daemons (H:=linux) 4 false ([(-1, 11); (-1, 12)] ++ [(77, 0)]) w0
    = Some (alive w')
    /\ fork_results (log w') = [-1; -1; 77]
    /\ sleeps (log w') = [100; 200].
Proof.
  intros w0.
  pose (w := ready_or w0 (daemons_init (H:=linux) 4 w0)).
  assert (daemons_init (H:=linux) 4 w0 = Some (init_ready (0, 1, 2) w))
    as Hinit by (vm_compute; reflexivity).
  assert (Forall (transient (H:=linux)) [(-1, 11); (-1, 12)]) as Hfails.
  { constructor; [split; [reflexivity | left; reflexivity] |].
    constructor; [split; [reflexivity | right; reflexivity] |].
    constructor. }
  assert (keep_q w = repeat true 2 ++ [true]) as Hkeep
    by (vm_compute; reflexivity).
  destruct (backoff_schedule (H:=linux) 4 false (0, 1, 2) w0 w
              [(-1, 11); (-1, 12)] [(77, 0)] [true] Hinit Hfails Hkeep)
    as (_ & _ & Hparent & _).
  exact (Hparent 77 0 [] [] eq_refl eq_refl eq_refl).
Defined.

(** ** The Orchestrator, case by case *)

Section Orchestrator.
Context `{Platform}.

(** A failed [read] ends the loop. *)
Lemma read_failed_ends fds0 n errno reads w :
  n < 0 ->
  read_loop fds0 ((n, errno) :: reads) w
  = Some (World (open_fds w ∖ {[fds0]}) (sig_table w) (counter w)
                (log w ++ a_read fds0 n
                   :: (if errno =? EINTR then []
                       else [a_pr_dbg read_failed errno]))
                (keep_q w) (redo_q w) (rc_q w) (pipe_q w)).
Proof.
  intros Hn. cbn [read_loop read fst snd].
  destruct (Z.ltb_spec n 0); [|lia].
  unfold pr_dbg, close. destruct (errno =? EINTR); cbn [negb]; fields.
  - reflexivity.
  - now rewrite <- app_assoc.
Qed.

(** Any other [read] is counted, and the harness is asked whether to go on. *)
Lemma read_counted fds0 n errno reads w keep kq :
  0 <= n ->
  keep_q w = keep :: kq ->
  let w1 := World (open_fds w) (sig_table w) (counter w + 1)
                  (log w ++ [a_read fds0 n])
                  kq (redo_q w) (rc_q w) (pipe_q w) in
  read_loop fds0 ((n, errno) :: reads) w
  = if keep then read_loop fds0 reads w1 else Some w1.
Proof.
  intros Hn Hk. cbn [read_loop read fst snd].
  destruct (Z.ltb_spec n 0); [lia|].
  unfold keep_stressing, next_keep, inc_counter. fields. rewrite Hk.
  reflexivity.
Qed.

(** The loop counts every [read] that does not fail, whatever it
    delivered. *)
Lemma read_loop_counts fds0 reads : forall w w',
  read_loop fds0 reads w = Some w' ->
  exists ns,
    read_results (log w') = read_results (log w) ++ ns
    /\ counter w' = counter w + not_failed ns.
Proof.
  induction reads as [|[n errno] reads IH]; intros w w' Hrun; [discriminate|].
  destruct (Z.ltb_spec n 0) as [Hn|Hn].
  - rewrite read_failed_ends in Hrun by exact Hn. injection Hrun as <-.
    exists [n]. fields. split.
    + rewrite read_results_app. now destruct (errno =? EINTR).
    + unfold not_failed. cbn [List.filter].
      destruct (Z.leb_spec 0 n); [lia|]. cbn. lia.
  - destruct (keep_q w) as [|keep kq] eqn:Hk.
    + cbn [read_loop read fst snd] in Hrun.
      destruct (Z.ltb_spec n 0); [lia|].
      unfold keep_stressing, next_keep, inc_counter in Hrun.
      fields_in Hrun. rewrite Hk in Hrun. discriminate.
    + rewrite (read_counted _ _ _ _ _ _ _ Hn Hk) in Hrun. cbv zeta in Hrun.
      assert (not_failed [n] = 1) as Hone.
      { unfold not_failed. cbn [List.filter].
        destruct (Z.leb_spec 0 n); [reflexivity | lia]. }
      assert (forall ns, not_failed (n :: ns) = 1 + not_failed ns) as Hcons.
      { intros ns. unfold not_failed. cbn [List.filter].
        destruct (Z.leb_spec 0 n); [|lia]. cbn [length]. lia. }
      destruct keep.
      * apply IH in Hrun as (ns & Hl & Hc). fields_in Hl. fields_in Hc.
        exists (n :: ns). rewrite Hl, Hc, Hcons, read_results_app.
        rewrite <- app_assoc. split; [reflexivity | lia].
      * injection Hrun as <-. exists [n]. fields.
        rewrite read_results_app, Hone. now split.
Qed.

Lemma sig_stop_registers sig w rc rq :
  rc_q w = rc :: rq -> 0 <= rc ->
  stress_sig_stop_stressing sig w
  = Some (rc, World (open_fds w) (<[sig := STOP_HANDLER]> (sig_table w))
                    (counter w) (log w) (keep_q w) (redo_q w) rq (pipe_q w)).
Proof.
  intros Hrc Hok. unfold stress_sig_stop_stressing, next_rc. rewrite Hrc.
  destruct (Z.ltb_spec rc 0); [lia|]. reflexivity.
Qed.

Lemma sig_stop_refuses sig w rc rq :
  rc_q w = rc :: rq -> rc < 0 ->
  stress_sig_stop_stressing sig w = Some (rc, with_rc_q rq w).
Proof.
  intros Hrc Hok. unfold stress_sig_stop_stressing, next_rc. rewrite Hrc.
  destruct (Z.ltb_spec rc 0); [|lia]. reflexivity.
Qed.

Lemma pipe_opens w p pq :
  pipe_q w = p :: pq -> 0 <= pipe_rc p ->
  pipe w
  = Some (p, World ({[pipe_rd p]} ∪ ({[pipe_wr p]} ∪ open_fds w))
                   (sig_table w) (counter w) (log w)
                   (keep_q w) (redo_q w) (rc_q w) pq).
Proof.
  intros Hp Hok. unfold pipe. rewrite Hp.
  destruct (Z.ltb_spec (pipe_rc p) 0); [lia|]. reflexivity.
Qed.

Lemma pipe_refuses w p pq :
  pipe_q w = p :: pq -> pipe_rc p < 0 ->
  pipe w = Some (p, with_pipe_q pq w).
Proof.
  intros Hp Hok. unfold pipe. rewrite Hp.
  destruct (Z.ltb_spec (pipe_rc p) 0); [|lia]. reflexivity.
Qed.

(** Up to the label [again]. *)
Lemma stress_daemon_set_up setting forks reads w rc rq p pq :
  rc_q w = rc :: rq -> 0 <= rc ->
  pipe_q w = p :: pq -> 0 <= pipe_rc p ->
  stress_daemon setting forks reads w
  = again (default false setting) (pipe_rd p) (pipe_wr p) forks reads
      (World ({[pipe_rd p]} ∪ ({[pipe_wr p]} ∪ open_fds w))
             (<[SIGALRM := STOP_HANDLER]> (sig_table w)) (counter w)
             (log w ++ [a_set_proc_state STRESS_STATE_RUN])
             (keep_q w) (redo_q w) rq pq).
Proof.
  intros Hrc Hok Hp Hpok. unfold stress_daemon.
  rewrite (sig_stop_registers _ _ _ _ Hrc Hok).
  destruct (Z.ltb_spec rc 0); [lia|].
  rewrite (pipe_opens _ p pq) by assumption.
  destruct (Z.ltb_spec (pipe_rc p) 0); [lia|].
  reflexivity.
Qed.

(** The fork of the Worker fails and the harness asks for another try. *)
Lemma again_retried dw fds0 fds1 pid errno forks reads w dq :
  pid < 0 ->
  redo_q w = true :: dq ->
  again dw fds0 fds1 ((pid, errno) :: forks) reads w
  = again dw fds0 fds1 forks reads
      (World (open_fds w) (sig_table w) (counter w) (log w ++ [a_fork pid])
             (keep_q w) dq (rc_q w) (pipe_q w)).
Proof.
  intros Hpid Hd. cbn [again].
  destruct (Z.ltb_spec pid 0); [|lia].
  unfold stress_redo_fork. fields. now rewrite Hd.
Qed.

Lemma again_retried_all dw fds0 fds1 fails : forall forks reads w dq,
  Forall (fun a => fst a < 0) fails ->
  redo_q w = repeat true (length fails) ++ dq ->
  again dw fds0 fds1 (fails ++ forks) reads w
  = again dw fds0 fds1 forks reads
      (World (open_fds w) (sig_table w) (counter w)
             (log w ++ map (fun a => a_fork (fst a)) fails)
             (keep_q w) dq (rc_q w) (pipe_q w)).
Proof.
  induction fails as [|[pid errno] fails IH]; intros forks reads w dq Hall Hd.
  - cbn [length repeat app map] in *. rewrite app_nil_r.
    destruct w; cbn in *; now subst.
  - apply Forall_cons_iff in Hall as [Hpid Hall].
    cbn [length repeat app map fst] in *.
    rewrite (again_retried _ _ _ _ _ _ _ _ _ Hpid Hd).
    rewrite (IH forks reads _ dq Hall); [|reflexivity]. fields.
    now rewrite <- app_assoc.
Qed.

(** The fork of the Worker fails for good. *)
Lemma again_gives_up dw fds0 fds1 pid errno forks reads w dq keep kq :
  pid < 0 ->
  redo_q w = false :: dq ->
  keep_q w = keep :: kq ->
  again dw fds0 fds1 ((pid, errno) :: forks) reads w
  = if keep then
      Some (returned EXIT_FAILURE,
            World (open_fds w ∖ {[fds0]} ∖ {[fds1]}) (sig_table w) (counter w)
                  (log w ++ [a_fork pid; a_pr_fail fork_failed errno])
                  kq dq (rc_q w) (pipe_q w))
    else
      Some (returned EXIT_SUCCESS,
            World (open_fds w) (sig_table w) (counter w)
                  (log w ++ [a_fork pid; a_set_proc_state STRESS_STATE_DEINIT])
                  kq dq (rc_q w) (pipe_q w)).
Proof.
  intros Hpid Hd Hk. cbn [again].
  destruct (Z.ltb_spec pid 0); [|lia].
  unfold stress_redo_fork, keep_stressing, next_keep. fields.
  rewrite Hd. fields. rewrite Hk.
  destruct keep; cbn [negb];
    unfold finish, stress_set_proc_state, pr_fail, close; fields;
    now rewrite <- app_assoc.
Qed.

(** The fork of the Worker succeeds, seen from the Orchestrator. *)
Lemma again_parent dw fds0 fds1 pid errno forks reads w :
  0 < pid ->
  again dw fds0 fds1 ((pid, errno) :: forks) reads w
  = match read_loop fds0 reads (close fds1 (did (a_fork pid) w)) with
    | None => None
    | Some w3 => Some (finish (daemon_wait_pid pid dw w3))
    end.
Proof.
  intros Hpid. cbn [again].
  destruct (Z.ltb_spec pid 0); [lia|].
  destruct (Z.eqb_spec pid 0); [lia|].
  reflexivity.
Qed.

End Orchestrator.

(** ** The Orchestrator's failures *)

(** C9.  When the stop-signal handler cannot be registered, [stress_daemon]
    returns EXIT_FAILURE at once: [pipe] is not called, nothing is forked,
    nothing is counted, no descriptor is opened. *)
Theorem registration_failure_returns_at_once `{Platform} (setting : option bool)
    (forks reads : list (Z * Z)) (w : world) (rc : Z) (rq : list Z) :
  rc_q w = rc :: rq ->
  rc < 0 ->
  exists w',
    stress_daemon setting forks reads w = Some (returned EXIT_FAILURE, w')
    /\ pipe_q w' = pipe_q w
    /\ log w' = log w
    /\ fork_results (log w') = fork_results (log w)
    /\ counter w' = counter w
    /\ open_fds w' = open_fds w.
Proof.
  intros Hrc Hneg. exists (with_rc_q rq w). split; [|now repeat split].
  unfold stress_daemon. rewrite (sig_stop_refuses _ _ _ _ Hrc Hneg).
  destruct (Z.ltb_spec rc 0); [reflexivity | lia].
Qed.

Lemma registration_failure_returns_at_once_witness :
  exists w',
    stress_daemon (H:=linux) None [(7, 0)] [(1, 0)]
      (boot [true] [] [-1] [pipe_3_4])
    = Some (returned EXIT_FAILURE, w')
    /\ pipe_q w' = [pipe_3_4]
    /\ log w' = []
    /\ fork_results (log w') = []
    /\ counter w' = 0
    /\ open_fds w' = {[0; 1; 2]}.
Proof.
  apply (registration_failure_returns_at_once (H:=linux) None [(7, 0)] [(1, 0)]
           (boot [true] [] [-1] [pipe_3_4]) (-1) []).
  - reflexivity.
  - lia.
Defined.

(** C8.  When [pipe] fails, [stress_daemon] reports the failure and returns
    EXIT_FAILURE; nothing is counted and nothing is forked. *)
Theorem pipe_failure_is_fatal `{Platform} (setting : option bool)
    (forks reads : list (Z * Z)) (w : world) (rc : Z) (rq : list Z)
    (p : pipe_answer) (pq : list pipe_answer) :
  rc_q w = rc :: rq ->
  0 <= rc ->
  pipe_q w = p :: pq ->
  pipe_rc p < 0 ->
  exists w',
    stress_daemon setting forks reads w = Some (returned EXIT_FAILURE, w')
    /\ log w' = log w ++ [a_pr_fail pipe_failed (pipe_errno p)]
    /\ fork_results (log w') = fork_results (log w)
    /\ counter w' = counter w
    /\ open_fds w' = open_fds w.
Proof.
  intros Hrc Hok Hp Hneg.
  eexists. split.
  - unfold stress_daemon. rewrite (sig_stop_registers _ _ _ _ Hrc Hok).
    destruct (Z.ltb_spec rc 0); [lia|].
    rewrite (pipe_refuses _ p pq) by assumption.
    destruct (Z.ltb_spec (pipe_rc p) 0); [reflexivity | lia].
  - unfold pr_fail. fields. repeat split.
    rewrite fork_results_app. cbn. now rewrite app_nil_r.
Qed.

Lemma pipe_failure_is_fatal_witness :
  exists w',
    stress_daemon (H:=linux) None [(7, 0)] [(1, 0)]
      (boot [true] [] [0] [PipeAnswer (-1) 24 0 0])
    = Some (returned EXIT_FAILURE, w')
    /\ log w' = [] ++ [a_pr_fail pipe_failed 24]
    /\ fork_results (log w') = []
    /\ counter w' = 0
    /\ open_fds w' = {[0; 1; 2]}.
Proof.
  apply (pipe_failure_is_fatal (H:=linux) None [(7, 0)] [(1, 0)]
           (boot [true] [] [0] [PipeAnswer (-1) 24 0 0]) 0 []
           (PipeAnswer (-1) 24 0 0) []).
  - reflexivity.
  - lia.
  - reflexivity.
  - cbn. lia.
Defined.

(** C6.  A failed fork of the Worker is tried again as long as the harness
    says so.  When it says no and the run is still to go on, the failure is
    reported and [stress_daemon] returns EXIT_FAILURE with both ends of the
    pipe closed; when the run is already over, it returns EXIT_SUCCESS. *)
Theorem worker_fork_failure `{Platform} (setting : option bool)
    (fails : list (Z * Z)) (pid errno : Z) (forks reads : list (Z * Z))
    (w : world) (rc : Z) (rq : list Z) (p : pipe_answer)
    (pq : list pipe_answer) (dq : list bool) (keep : bool) (kq : list bool) :
  rc_q w = rc :: rq ->
  0 <= rc ->
  pipe_q w = p :: pq ->
  0 <= pipe_rc p ->
  Forall (fun a => fst a < 0) fails ->
  pid < 0 ->
  redo_q w = repeat true (length fails) ++ false :: dq ->
  keep_q w = keep :: kq ->
  exists w',
    stress_daemon setting (fails ++ (pid, errno) :: forks) reads w
    = Some (returned (if keep then EXIT_FAILURE else EXIT_SUCCESS), w')
    /\ log w'
       = log w ++ a_set_proc_state STRESS_STATE_RUN
           :: map (fun a => a_fork (fst a)) fails
           ++ [a_fork pid;
               if keep then a_pr_fail fork_failed errno
               else a_set_proc_state STRESS_STATE_DEINIT]
    /\ (keep = true ->
        (pipe_rd p ∉ open_fds w') /\ (pipe_wr p ∉ open_fds w'))
    /\ counter w' = counter w.
Proof.
  intros Hrc Hok Hp Hpok Hfails Hpid Hredo Hkeep.
  rewrite (stress_daemon_set_up _ _ _ _ _ _ _ _ Hrc Hok Hp Hpok).
  rewrite (again_retried_all _ _ _ fails _ _ _ (false :: dq) Hfails)
    by exact Hredo.
  rewrite (again_gives_up _ _ _ _ _ _ _ _ dq keep kq Hpid)
    by (try reflexivity; exact Hkeep).
  fields. destruct keep; eexists; (split; [reflexivity|]); fields.
  - split; [|split; [|reflexivity]].
    + rewrite <- !app_assoc. reflexivity.
    + intros _. split; closed.
  - split; [|split; [discriminate|reflexivity]].
    rewrite <- !app_assoc. reflexivity.
Qed.

Lemma worker_fork_failure_witness :
  exists w',
    stress_daemon (H:=linux) None ([(-1, 11)] ++ (-1, 38) :: []) []
      (boot [true] [true; false] [0] [pipe_3_4])
    = Some (returned EXIT_FAILURE, w')
    /\ log w'
       = [] ++ [a_set_proc_state STRESS_STATE_RUN; a_fork (-1); a_fork (-1);
                a_pr_fail fork_failed 38]
    /\ (true = true -> (3 ∉ open_fds w') /\ (4 ∉ open_fds w'))
    /\ counter w' = 0.
Proof.
  apply (worker_fork_failure (H:=linux) None [(-1, 11)] (-1) 38 [] []
           (boot [true] [true; false] [0] [pipe_3_4]) 0 [] pipe_3_4 []
           [] true []).
  - reflexivity.
  - lia.
  - reflexivity.
  - cbn. lia.
  - repeat constructor.
  - lia.
  - reflexivity.
  - reflexivity.
Defined.

(** ** The read loop *)

(** C2, as the spec has it, fails: here the first [read] is interrupted
    (errno 4 is EINTR on Linux) while a sentinel is waiting to be read.  The
    interrupted [read] is not tried again: the loop is over after this one
    call, the waiting byte is never read, and the read end is closed. *)
Lemma interrupted_read_not_retried :
  exists w,
    stress_daemon (H:=linux) None [(7, 0)] [(-1, 4); (1, 0)]
      (boot [false] [] [0] [pipe_3_4])
    = Some (returned EXIT_SUCCESS, w)
    /\ read_results (log w) = [-1]
    /\ log w = [a_set_proc_state STRESS_STATE_RUN; a_fork 7; a_read 3 (-1);
                a_set_proc_state STRESS_STATE_DEINIT]
    /\ counter w = 0
    /\ keep_q w = [false]
    /\ (3 ∉ open_fds w).
Proof.
  eexists. split; [vm_compute; reflexivity|].
  repeat split. by_computing.
Qed.

(** C2, amended.  A [read] that fails, with EINTR or with any other error, is
    not tried again: the read end is closed and the loop is over, with
    nothing counted.  EINTR differs only in that no debug message is
    printed. *)
Theorem failed_read_ends_loop `{Platform} (fds0 n errno : Z)
    (reads : list (Z * Z)) (w : world) :
  n < 0 ->
  exists w',
    read_loop fds0 ((n, errno) :: reads) w = Some w'
    /\ (fds0 ∉ open_fds w')
    /\ counter w' = counter w
    /\ read_results (log w') = read_results (log w) ++ [n]
    /\ log w'
       = log w ++ a_read fds0 n
           :: (if errno =? EINTR then [] else [a_pr_dbg read_failed errno])
    /\ keep_q w' = keep_q w.
Proof.
  intros Hn. rewrite (read_failed_ends _ _ _ _ _ Hn).
  eexists. split; [reflexivity|]. fields. repeat split.
  - closed.
  - rewrite read_results_app. destruct (errno =? EINTR); reflexivity.
Qed.

Lemma failed_read_ends_loop_witness :
  exists w',
    read_loop (H:=linux) 3 [(-1, 4); (1, 0)]
      (World {[0; 1; 2; 3]} ∅ 0 [] [false] [] [] [])
    = Some w'
    /\ (3 ∉ open_fds w')
    /\ counter w' = 0
    /\ read_results (log w') = [] ++ [-1]
    /\ log w' = [] ++ [a_read 3 (-1)]
    /\ keep_q w' = [false].
Proof.
  apply (failed_read_ends_loop (H:=linux) 3 (-1) 4 [(1, 0)]
           (World {[0; 1; 2; 3]} ∅ 0 [] [false] [] [] [])).
  lia.
Defined.

(** C1 fails on the code.  The pipe is at end of stream (every [read]
    returns 0: no sentinel is there to read), yet each of the three reads is
    counted and the loop only ends when the harness says so. *)
Theorem end_of_stream_is_counted :
  exists w,
    stress_daemon (H:=linux) None [(7, 0)] [(0, 0); (0, 0); (0, 0)]
      (boot [true; true; false] [] [0] [pipe_3_4])
    = Some (returned EXIT_SUCCESS, w)
    /\ read_results (log w) = [0; 0; 0]
    /\ counter w = 3.
Proof.
  eexists. split; [vm_compute; reflexivity|]. now split.
Qed.

(** C5 fails on the code.  First run: the Worker is forked, one sentinel is
    read and the harness then stops the run; [stress_daemon] returns with the
    read end 3 still open.  Second run: the fork of the Worker fails, is not
    to be tried again, and the run is already over; [stress_daemon] returns
    through [finish] with both ends open. *)
Theorem channel_left_open :
  (exists w,
     stress_daemon (H:=linux) None [(7, 0)] [(1, 0)]
       (boot [false] [] [0] [pipe_3_4])
     = Some (returned EXIT_SUCCESS, w)
     /\ (3 ∈ open_fds w) /\ (4 ∉ open_fds w))
  /\ (exists w,
        stress_daemon (H:=linux) None [(-1, 11)] []
          (boot [false] [false] [0] [pipe_3_4])
        = Some (returned EXIT_SUCCESS, w)
        /\ (3 ∈ open_fds w) /\ (4 ∈ open_fds w)).
Proof.
  split; eexists; (split; [vm_compute; reflexivity|]);
    split; by_computing.
Qed.

(** ** The reset of the signal dispositions *)

Lemma signal_frame sig d w :
  signal sig d w = with_sig (fun _ => sig_table (signal sig d w)) w.
Proof. unfold signal. destruct (0 <? sig); destruct w; reflexivity. Qed.

Lemma signal_reset_frame n : forall i w,
  signal_reset n i w = with_sig (fun _ => sig_table (signal_reset n i w)) w.
Proof.
  induction n as [|n IH]; intros i w.
  - destruct w; reflexivity.
  - cbn [signal_reset]. rewrite IH at 1.
    rewrite (signal_frame i SIG_DFL w) at 1. reflexivity.
Qed.

Lemma signal_reset_below n : forall i w (j : Z),
  j < i -> sig_table (signal_reset n i w) !! j = sig_table w !! j.
Proof.
  induction n as [|n IH]; intros i w j Hj; [reflexivity|].
  cbn [signal_reset]. rewrite IH by lia.
  unfold signal. destruct (0 <? i); [|reflexivity].
  cbn. apply lookup_insert_ne. lia.
Qed.

Lemma signal_reset_covers n : forall i w (j : Z),
  0 < j -> i <= j < i + Z.of_nat n ->
  sig_table (signal_reset n i w) !! j = Some SIG_DFL.
Proof.
  induction n as [|n IH]; intros i w j Hpos Hj; [lia|].
  cbn [signal_reset].
  destruct (Z.eq_dec j i) as [->|Hne].
  - rewrite signal_reset_below by lia.
    unfold signal. destruct (Z.ltb_spec 0 i); [|lia].
    cbn. apply lookup_insert_eq.
  - apply IH; lia.
Qed.

Section Spawning.
Context `{Platform}.
Variables (fd : Z) (daemon_wait : bool) (fds : Z * Z * Z).

(** The spawning loop sets no disposition and counts nothing. *)
Lemma loop_run_keeps_dispositions backoff forks w f :
  loop_run fd daemon_wait fds backoff forks w f ->
  sig_table (image f) = sig_table w /\ counter (image f) = counter w.
Proof.
  induction 1; cbn [image] in *;
    rewrite ?sig_table_tidy, ?counter_tidy, ?sig_table_err2, ?counter_err2;
    try assumption; try (now destruct daemon_wait); now split.
Qed.

Lemma loop_keeps_dispositions forks backoff w f :
  daemons_loop fd daemon_wait fds backoff forks w = Some f ->
  sig_table (image f) = sig_table w /\ counter (image f) = counter w.
Proof.
  intros Hrun. apply loop_run_complete in Hrun.
  now apply loop_run_keeps_dispositions in Hrun.
Qed.

End Spawning.

Section Initialisation.
Context `{Platform}.

(** Past [setsid], the initialisation ends with the dispositions that the
    reset loop leaves. *)
Lemma daemons_init_dispositions fd w r1 r2 r3 r4 r5 rq :
  rc_q w = r1 :: r2 :: r3 :: r4 :: r5 :: rq ->
  0 <= r1 -> 0 <= r2 ->
  exists r w3,
    daemons_init fd w = Some r
    /\ sig_table w3 = <[SIGALRM := STOP_HANDLER]> (sig_table w)
    /\ sig_table (init_world r)
       = sig_table (signal_reset (Z.to_nat MAX_SIGNUM) 0 w3).
Proof.
  intros Hrc H1 H2. unfold daemons_init.
  rewrite (sig_stop_registers _ _ _ _ Hrc H1).
  destruct (Z.ltb_spec r1 0); [lia|].
  unfold setsid, next_rc. fields.
  destruct (Z.ltb_spec r2 0); [lia|].
  match goal with
  | |- context [signal_reset ?m 0 ?x] => set (w3 := x); set (n := m)
  end.
  rewrite (signal_reset_frame n 0 w3).
  set (t := sig_table (signal_reset n 0 w3)).
  unfold open_dev_null, dup, next_rc, w3, close.
  destruct HAVE_CLEARENV; fields;
  destruct (r3 <? 0) eqn:E3; fields; rewrite ?E3.
  all: try (eexists _, w3; split; [reflexivity|]; split; reflexivity).
  all: destruct (r4 <? 0) eqn:E4; fields; rewrite ?E4.
  all: try (eexists _, w3; split; [reflexivity|]; split; reflexivity).
  all: destruct (r5 <? 0) eqn:E5; fields; rewrite ?E5.
  all: eexists _, w3; split; [reflexivity|]; split; reflexivity.
Qed.

End Initialisation.

(** C10.  In [daemons] the stop-signal handler is registered first, and the
    loop that sets the signals [0 .. MAX_SIGNUM - 1] to SIG_DFL runs after
    it; SIGALRM is one of them.  So the initialisation ends, and the
    spawning loop runs and ends (by a return or by a signal), with SIGALRM at
    its default action. *)
Theorem stop_signal_back_to_default `{Platform} (fd : Z) (w : world)
    (r1 r2 r3 r4 r5 : Z) (rq : list Z) :
  rc_q w = r1 :: r2 :: r3 :: r4 :: r5 :: rq ->
  0 <= r1 ->
  0 <= r2 ->
  0 < SIGALRM < MAX_SIGNUM ->
  (exists w1,
     stress_sig_stop_stressing SIGALRM w = Some (r1, w1)
     /\ disposition_of SIGALRM w1 = STOP_HANDLER)
  /\ (exists r,
        daemons_init fd w = Some r
        /\ disposition_of SIGALRM (init_world r) = SIG_DFL
        /\ forall sig, 0 < sig < MAX_SIGNUM ->
             disposition_of sig (init_world r) = SIG_DFL)
  /\ (forall daemon_wait forks f,
        daemons fd daemon_wait forks w = Some f ->
        disposition_of SIGALRM (image f) = SIG_DFL).
Proof.
  intros Hrc H1 H2 Hsig.
  destruct (daemons_init_dispositions fd w _ _ _ _ _ _ Hrc H1 H2)
    as (r & w3 & Hinit & _ & Htable).
  assert (forall sig, 0 < sig < MAX_SIGNUM ->
            disposition_of sig (init_world r) = SIG_DFL) as Hall.
  { intros sig Hs. unfold disposition_of.
    rewrite Htable, signal_reset_covers by lia. reflexivity. }
  split; [|split].
  - rewrite (sig_stop_registers _ _ _ _ Hrc H1). eexists. split; [reflexivity|].
    unfold disposition_of. cbn. now rewrite lookup_insert_eq.
  - exists r. auto.
  - intros daemon_wait forks f. unfold daemons. rewrite Hinit.
    destruct r as [w1|fds w1]; cbn [init_world] in *.
    + intros [= <-]. now apply Hall.
    + intros Hrun. apply loop_keeps_dispositions in Hrun as [Ht _].
      unfold disposition_of. rewrite Ht. now apply Hall.
Qed.

Lemma stop_signal_back_to_default_witness :
  let w := worker_start [true; false] [0; 0; 0; 1; 2; 0; 1] in
  (exists w1,
     stress_sig_stop_stressing 14 w = Some (0, w1)
     /\ disposition_of 14 w1 = STOP_HANDLER)
  /\ (exists r,
        daemons_init (H:=linux) 4 w = Some r
        /\ disposition_of 14 (init_world r) = SIG_DFL
        /\ forall sig, 0 < sig < 65 ->
             disposition_of sig (init_world r) = SIG_DFL)
  /\ (forall daemon_wait forks f,
        daemons (H:=linux) 4 daemon_wait forks w = Some f ->
        disposition_of 14 (image f) = SIG_DFL).
Proof.
  intros w.
  apply (stop_signal_back_to_default (H:=linux) 4 w 0 0 0 1 2 [0; 1]).
  - reflexivity.
  - lia.
  - lia.
  - cbn. lia.
Defined.

(** ** Generations of descendants *)




Section Generations.
Context `{Platform}.
Variables (fd : Z) (daemon_wait : bool) (fds : Z * Z * Z).


(** Once the Worker is forked, the Orchestrator can only return
    EXIT_SUCCESS. *)
Lemma orchestrator_status fds0 fds1 pid errno forks reads w x w' :
  0 < pid ->
  again daemon_wait fds0 fds1 ((pid, errno) :: forks) reads w
  = Some (x, w') ->
  x = returned EXIT_SUCCESS.
Proof.
  intros Hpid. rewrite (again_parent _ _ _ _ _ _ _ _ Hpid).
  destruct (read_loop _ _ _); [|discriminate].
  unfold finish. now intros [= <- _].
Qed.

(** The forked Worker, and whoever descends from it, leaves [stress_daemon]
    through [shim_exit_group(0)], the write end closed, unless a signal ends
    it inside [daemons]. *)
Lemma lineage_exits fds0 fds1 errno forks reads w :
  again daemon_wait fds0 fds1 ((0, errno) :: forks) reads w
  = match daemons fds1 daemon_wait forks (close fds0 (did (a_fork 0) w)) with
    | None => None
    | Some (killed sig w3) => Some (signalled sig, w3)
    | Some (alive w3) => Some (exited 0, close fds1 w3)
    end.
Proof. reflexivity. Qed.

End Generations.




(** ** A descendant that fails *)

(** C7, as the spec has it, fails.  The Worker is forked and initialised; its
    first descendant changes directory and writes its sentinel, but nobody is
    left to read from the pipe (the write fails with errno 32, EPIPE).  The
    reset loop has left SIGPIPE (13) at its default action, so the descendant
    is ended by the signal inside [write]: it never reaches [err2] or
    [shim_exit_group], and the write end 4 and the descriptors 0, 1 and 2 on
    the null device are still open at that moment. *)
Lemma undelivered_sentinel_kills_descendant :
  exists w',
    again (H:=linux) false 3 4 [(0, 0); (0, 0)] []
      (World {[0; 1; 2; 3; 4]} {[14 := STOP_HANDLER]} 0 [] [true] []
             [0; 0; 0; 1; 2; 0; -1; 32] [])
    = Some (signalled 13, w')
    /\ fork_results (log w') = [0; 0]
    /\ writes (log w') = [(4, [])]
    /\ (4 ∈ open_fds w')
    /\ (0 ∈ open_fds w') /\ (1 ∈ open_fds w') /\ (2 ∈ open_fds w').
Proof.
  eexists. split; [vm_compute; reflexivity|].
  split; [reflexivity|]. split; [reflexivity|].
  repeat split; by_computing.
Qed.

(** C7, amended.  A descendant whose [chdir] fails, or whose [write] returns
    anything but 1, closes the three descriptors on the null device and the
    write end of the pipe and leaves [daemons].  A descendant whose [write]
    finds nobody left to read, SIGPIPE having its default action, is ended by
    that signal inside [write] and closes nothing itself.  Either way no byte
    of it reaches the pipe, so there is no sentinel of it to count, and it
    forks no more.  A process of the lineage that leaves [daemons] ends in
    [shim_exit_group(0)]; the Orchestrator, once the Worker is forked, can
    only return EXIT_SUCCESS. *)
Theorem failed_descendant_is_abandoned `{Platform} (fd : Z)
    (daemon_wait : bool) (fds0 fds1 fds2 backoff errno : Z)
    (forks : list (Z * Z)) (w : world) (kq : list bool) (rc sz e : Z)
    (rq : list Z) :
  keep_q w = true :: kq ->
  ((rc_q w = rc :: rq /\ rc < 0)
   \/ (rc_q w = rc :: sz :: rq /\ 0 <= rc /\ 0 <= sz <= 1 /\ sz <> 1)
   \/ (rc_q w = rc :: sz :: e :: rq /\ 0 <= rc /\ sz < 0
       /\ ~ (e = EPIPE /\ disposition_of SIGPIPE w = SIG_DFL)) ->
   exists w',
     daemons_loop fd daemon_wait (fds0, fds1, fds2) backoff
       ((0, errno) :: forks) w
     = Some (alive w')
     /\ (fd ∉ open_fds w') /\ (fds0 ∉ open_fds w')
     /\ (fds1 ∉ open_fds w') /\ (fds2 ∉ open_fds w')
     /\ sent_bytes (log w') = sent_bytes (log w)
     /\ fork_results (log w') = fork_results (log w) ++ [0]
     /\ counter w' = counter w)
  /\ (rc_q w = rc :: sz :: EPIPE :: rq /\ 0 <= rc /\ sz < 0
      /\ disposition_of SIGPIPE w = SIG_DFL ->
      exists w',
        daemons_loop fd daemon_wait (fds0, fds1, fds2) backoff
          ((0, errno) :: forks) w
        = Some (killed SIGPIPE w')
        /\ open_fds w' = open_fds w
        /\ sent_bytes (log w') = sent_bytes (log w)
        /\ fork_results (log w') = fork_results (log w) ++ [0]
        /\ counter w' = counter w)
  /\ (forall f0 f1 e1 fs reads v,
        again daemon_wait f0 f1 ((0, e1) :: fs) reads v
        = match daemons f1 daemon_wait fs (close f0 (did (a_fork 0) v)) with
          | None => None
          | Some (killed sig v3) => Some (signalled sig, v3)
          | Some (alive v3) => Some (exited 0, close f1 v3)
          end)
  /\ (forall f0 f1 pid e1 fs reads v x v',
        0 < pid ->
        again daemon_wait f0 f1 ((pid, e1) :: fs) reads v = Some (x, v') ->
        x = returned EXIT_SUCCESS).
Proof.
  intros Hk. split; [|split; [|split]].
  - intros [[Hrc Hneg] | [(Hrc & Hok & Hsz & Hne) | (Hrc & Hok & Hsz & Hnot)]].
    + rewrite (round_child_chdir_fails _ _ _ _ _ _ _ _ _ _ Hk Hrc Hneg).
      eexists. split; [reflexivity|].
      rewrite open_fds_err2, log_err2, counter_err2. fields.
      rewrite !sent_bytes_app, !fork_results_app.
      repeat split; try closed. cbn. now rewrite app_nil_r.
    + rewrite (round_child_write_short _ _ _ _ _ _ _ _ _ _ _ Hk Hrc Hok)
        by (lia || assumption).
      eexists. split; [reflexivity|].
      rewrite open_fds_err2, log_err2, counter_err2. fields.
      rewrite !sent_bytes_app, !fork_results_app.
      replace (Z.to_nat sz) with 0%nat by lia.
      repeat split; try closed. cbn. now rewrite app_nil_r.
    + rewrite (round_child_write_fails _ _ _ _ _ _ _ _ _ _ _ _
                 Hk Hrc Hok Hsz Hnot).
      eexists. split; [reflexivity|].
      rewrite open_fds_err2, log_err2, counter_err2. fields.
      rewrite !sent_bytes_app, !fork_results_app.
      repeat split; try closed. cbn. now rewrite app_nil_r.
  - intros (Hrc & Hok & Hsz & Hd).
    rewrite (round_child_killed _ _ _ _ _ _ _ _ _ _ _ Hk Hrc Hok Hsz Hd).
    eexists. split; [reflexivity|]. fields.
    rewrite !sent_bytes_app, !fork_results_app.
    repeat split. cbn. now rewrite app_nil_r.
  - intros. apply lineage_exits.
  - intros f0 f1 pid e1 fs reads v x v' Hpid Hrun.
    exact (orchestrator_status daemon_wait f0 f1 pid e1 fs reads v x v' Hpid Hrun).
Qed.

Lemma failed_descendant_is_abandoned_witness :
  let w := World {[0; 1; 2; 4]} ∅ 0 [] [true; true] [] [0; -1; 32; 0; 1] [] in
  let v := World {[0; 1; 2; 4]} ∅ 0 [] [true; true] [] [0; -1; 5; 0; 1] [] in
  (exists w',
     daemons_loop (H:=linux) 4 false (0, 1, 2) 100 [(0, 0); (0, 0)] w
     = Some (killed 13 w')
     /\ open_fds w' = open_fds w
     /\ sent_bytes (log w') = sent_bytes (log w)
     /\ fork_results (log w') = fork_results (log w) ++ [0]
     /\ counter w' = counter w)
  /\ (exists v',
        daemons_loop (H:=linux) 4 false (0, 1, 2) 100 [(0, 0); (0, 0)] v
        = Some (alive v')
        /\ (4 ∉ open_fds v') /\ (0 ∉ open_fds v')
        /\ (1 ∉ open_fds v') /\ (2 ∉ open_fds v')
        /\ sent_bytes (log v') = sent_bytes (log v)
        /\ fork_results (log v') = fork_results (log v) ++ [0]
        /\ counter v' = counter v).
Proof.
  intros w v. split.
  - refine (proj1 (proj2 (failed_descendant_is_abandoned (H:=linux) 4 false
                            0 1 2 100 0 [(0, 0)] w [true] 0 (-1) 32 [0; 1]
                            _)) _).
    + reflexivity.
    + repeat split; lia.
  - refine (proj1 (failed_descendant_is_abandoned (H:=linux) 4 false
                     0 1 2 100 0 [(0, 0)] v [true] 0 (-1) 5 [0; 1] _) _).
    + reflexivity.
    + right. right. repeat split; try lia. intros [He _]. discriminate He.
Defined.

(** * Further properties *)


(** ** What the initialisation of [daemons] can leave behind *)

(** Inclusions between sets built with union, difference and singletons. *)
Ltac included :=
  let x := fresh "x" in
  let Hx := fresh "Hx" in
  apply elem_of_subseteq; intros x Hx;
  repeat first [ rewrite elem_of_difference in Hx
               | rewrite elem_of_union in Hx
               | rewrite elem_of_singleton in Hx ];
  repeat first [ rewrite elem_of_difference
               | rewrite elem_of_union
               | rewrite elem_of_singleton ];
  tauto.

Section InitialisationRuns.
Context `{Platform}.

Lemma daemons_init_summary fd w r :
  daemons_init fd w = Some r ->
  counter (init_world r) = counter w
  /\ keep_q (init_world r) = keep_q w
  /\ (exists new, log (init_world r) = log w ++ new /\ Forall init_action new)
  /\ match r with
     | init_aborted w' =>
         open_fds w' ⊆ open_fds w ∖ {[fd]}
     | init_ready (fds0, fds1, fds2) w' =>
         open_fds w'
         = {[fds2]} ∪ ({[fds1]} ∪ ({[fds0]}
             ∪ open_fds w ∖ {[0]} ∖ {[1]} ∖ {[2]}))
     end.
Proof.
  unfold daemons_init, stress_sig_stop_stressing, next_rc.
  destruct (rc_q w) as [|r1 q1]; [discriminate|].
  destruct (r1 <? 0) eqn:E1; rewrite ?E1.
  { intros [= <-]. cbn. repeat split; try reflexivity.
    exists []. now rewrite app_nil_r. }
  unfold setsid, next_rc. fields.
  destruct q1 as [|r2 q2]; [discriminate|]. fields.
  destruct (r2 <? 0) eqn:E2.
  { intros [= <-]. cbn. repeat split; try reflexivity.
    exists [a_setsid]. split; [reflexivity|]. repeat constructor. }
  match goal with
  | |- context [signal_reset ?m 0 ?x] => set (w3 := x); set (n := m)
  end.
  rewrite (signal_reset_frame n 0 w3).
  set (t := sig_table (signal_reset n 0 w3)).
  unfold open_dev_null, dup, next_rc, w3, close.
  assert (forall l, Forall init_action l ->
          Forall init_action (a_setsid :: a_sigprocmask_empty :: l)) as Hacts.
  { intros l Hl. constructor; [now left|]. constructor; [right; now left|].
    exact Hl. }
  assert (Forall init_action [a_clearenv]) as Hclear.
  { constructor; [right; now right | constructor]. }
  destruct HAVE_CLEARENV; fields.
  all: destruct q2 as [|r3 q3]; [discriminate|]; fields.
  all: destruct (r3 <? 0) eqn:E3; fields; rewrite ?E3.
  all: try (intros [= <-]; unfold err, close; cbn [init_world]; fields;
            repeat split;
            [eexists; rewrite <- !app_assoc;
             split; [reflexivity | cbn [app]; auto] | included]).
  all: destruct q3 as [|r4 q4]; [discriminate|]; fields.
  all: destruct (r4 <? 0) eqn:E4; fields; rewrite ?E4.
  all: try (intros [= <-]; unfold err0, err, close; cbn [init_world]; fields;
            repeat split;
            [eexists; rewrite <- !app_assoc;
             split; [reflexivity | cbn [app]; auto] | included]).
  all: destruct q4 as [|r5 q5]; [discriminate|]; fields.
  all: destruct (r5 <? 0) eqn:E5; fields; rewrite ?E5.
  all: try (intros [= <-]; unfold err1, err0, err, close; cbn [init_world];
            fields; repeat split;
            [eexists; rewrite <- !app_assoc;
             split; [reflexivity | cbn [app]; auto] | included]).
  all: intros [= <-]; cbn [init_world]; fields; repeat split;
       eexists; rewrite <- !app_assoc; split; [reflexivity | cbn [app]; auto].
Qed.

(** With its five calls answered the initialisation comes to an end, and
    has used up the five answers if it reaches the loop. *)
Lemma daemons_init_ends fd w r1 r2 r3 r4 r5 rq :
  rc_q w = r1 :: r2 :: r3 :: r4 :: r5 :: rq ->
  exists r,
    daemons_init fd w = Some r
    /\ match r with
       | init_ready _ w' => rc_q w' = rq
       | init_aborted _ => True
       end.
Proof.
  intros Hrc.
  unfold daemons_init, stress_sig_stop_stressing, next_rc. rewrite Hrc.
  destruct (r1 <? 0) eqn:E1; rewrite ?E1; [eexists; split; [reflexivity | exact I]|].
  unfold setsid, next_rc. fields.
  destruct (r2 <? 0) eqn:E2; rewrite ?E2; [eexists; split; [reflexivity | exact I]|].
  match goal with
  | |- context [signal_reset ?m 0 ?x] => set (w3 := x); set (n := m)
  end.
  rewrite (signal_reset_frame n 0 w3).
  set (t := sig_table (signal_reset n 0 w3)).
  unfold open_dev_null, dup, next_rc, w3, close.
  destruct HAVE_CLEARENV; fields.
  all: destruct (r3 <? 0) eqn:E3; fields; rewrite ?E3; [eexists; split; [reflexivity | exact I]|].
  all: destruct (r4 <? 0) eqn:E4; fields; rewrite ?E4; [eexists; split; [reflexivity | exact I]|].
  all: destruct (r5 <? 0) eqn:E5; fields; rewrite ?E5; [eexists; split; [reflexivity | exact I]|].
  all: eexists; split; [reflexivity|]; reflexivity.
Qed.

End InitialisationRuns.

(** The initialisation forks nothing, writes nothing, waits for nobody. *)
Lemma init_actions_quiet new :
  Forall init_action new ->
  fork_results new = [] /\ writes new = [] /\ waited new = []
  /\ sleeps new = [] /\ read_results new = [].
Proof.
  induction 1 as [|a new Ha _ IH]; [now repeat split|].
  destruct IH as (Hf & Hw & Hp & Hs & Hr).
  destruct Ha as [-> | [-> | ->]]; cbn; now rewrite ?Hf, ?Hw, ?Hp, ?Hs, ?Hr.
Qed.

(** ** What a run of the spawning loop does *)

(** A write of the spawning loop: to the pipe, and the sentinel or nothing. *)
Lemma sentinel_or_nothing (n : nat) :
  firstn n [255] = [] \/ firstn n [255] = [255].
Proof. destruct n as [|[|n]]; cbn; auto. Qed.

Section RunFacts.
Context `{Platform}.
Variables (fd : Z) (daemon_wait : bool).

Ltac leaf :=
  try solve [constructor; [lia | constructor]];
  try solve [now destruct daemon_wait];
  try solve [cbn; lia];
  try solve [constructor;
             [cbn [fst snd]; split; [reflexivity | apply sentinel_or_nothing]
             | constructor]];
  try solve [constructor; [cbn [fst snd]; split; [reflexivity | now left]
                          | constructor]].

Lemma loop_run_open_fds fds0 fds1 fds2 backoff forks w f :
  loop_run fd daemon_wait (fds0, fds1, fds2) backoff forks w f ->
  match f with
  | alive w' => open_fds w' ⊆ open_fds w ∖ {[fds2]} ∖ {[fds1]} ∖ {[fds0]}
  | killed _ w' => open_fds w' = open_fds w
  end.
Proof.
  induction 1;
    rewrite ?open_fds_tidy, ?open_fds_err2; try assumption; fields;
    try (destruct daemon_wait; fields); try reflexivity; included.
Qed.

(** A process that the loop sees ended was ended by SIGPIPE, at its default
    action, in a write to the pipe that delivered nothing. *)
Lemma loop_run_killed fds backoff forks w f :
  loop_run fd daemon_wait fds backoff forks w f ->
  forall sig w', f = killed sig w' ->
  sig = SIGPIPE
  /\ disposition_of SIGPIPE w' = SIG_DFL
  /\ exists pre, writes (log w') = pre ++ [(fd, [])].
Proof.
  induction 1; intros sig0 w0 Hf; try discriminate; eauto.
  injection Hf as <- <-. split; [reflexivity|]. split.
  - unfold disposition_of in *. now fields.
  - fields. rewrite writes_app. cbn. eauto.
Qed.

Lemma loop_run_log fds backoff forks w f :
  loop_run fd daemon_wait fds backoff forks w f ->
  exists frs tail ws,
    fork_results (log (image f)) = fork_results (log w) ++ frs ++ tail
    /\ Forall (fun pid => pid <= 0) frs
    /\ (tail = [] \/ exists pid, 0 < pid /\ tail = [pid])
    /\ waited (log (image f))
       = waited (log w) ++ (if daemon_wait then tail else [])
    /\ writes (log (image f)) = writes (log w) ++ ws
    /\ Forall (fun x => fst x = fd /\ (snd x = [] \/ snd x = [255])) ws
    /\ (length ws <= length (List.filter (Z.eqb 0) frs))%nat.
Proof.
  induction 1 as
    [ backoff forks w kq Hk
    | backoff answer forks w kq f Hk Ht _ IH
    | backoff pid errno forks w kq Hk Hpid He1 He2
    | backoff pid errno forks w kq Hk Hpid
    | backoff errno forks w kq rc rq f Hk Hrc Hok _ IH
    | backoff errno forks w kq rc rq Hk Hrc Hneg
    | backoff errno forks w kq rc sz rq Hk Hrc Hok Hsz0 Hsz
    | backoff errno forks w kq rc sz e rq Hk Hrc Hok Hsz Hnot
    | backoff errno forks w kq rc sz rq Hk Hrc Hok Hsz Hd ];
    cbn [image].
  - exists [], [], []. rewrite log_tidy. fields.
    rewrite !app_nil_r. repeat split; auto.
    now destruct daemon_wait; rewrite app_nil_r.
  - destruct IH as (frs & tail & ws & Hf & Hneg & Htail & Hw & Hwr & Hall & Hlen).
    fields_in Hf. fields_in Hw. fields_in Hwr.
    rewrite fork_results_app in Hf. rewrite waited_app in Hw.
    rewrite writes_app in Hwr. cbn in Hf, Hw, Hwr.
    rewrite app_nil_r in Hw, Hwr. rewrite <- app_assoc in Hf.
    destruct Ht as [Hpid _].
    exists (fst answer :: frs), tail, ws. repeat split; auto.
    + constructor; [lia | exact Hneg].
    + cbn [List.filter]. destruct (Z.eqb_spec 0 (fst answer)); [lia|exact Hlen].
  - exists [pid], [], []. rewrite log_tidy. fields.
    rewrite fork_results_app, waited_app, writes_app. cbn.
    repeat split; auto; leaf.
  - exists [], [pid], []. rewrite log_tidy, log_daemon_wait_pid. fields.
    rewrite !fork_results_app, !waited_app, !writes_app.
    destruct daemon_wait; cbn; rewrite ?app_nil_r; repeat split; eauto.
  - destruct IH as (frs & tail & ws & Hf & Hneg & Htail & Hw & Hwr & Hall & Hlen).
    fields_in Hf. fields_in Hw. fields_in Hwr.
    rewrite fork_results_app in Hf. rewrite waited_app in Hw.
    rewrite writes_app in Hwr. cbn in Hf, Hw, Hwr.
    rewrite app_nil_r in Hw. rewrite <- app_assoc in Hf, Hwr.
    exists (0 :: frs), tail, ((fd, [255]) :: ws). repeat split; auto.
    + constructor; [lia | exact Hneg].
    + cbn [List.filter Z.eqb length]. lia.
  - exists [0], [], []. rewrite log_err2. fields.
    rewrite fork_results_app, waited_app, writes_app. cbn.
    repeat split; auto; leaf.
  - exists [0], [], [(fd, firstn (Z.to_nat sz) [255])]. rewrite log_err2. fields.
    rewrite fork_results_app, waited_app, writes_app. cbn.
    repeat split; auto; leaf.
  - exists [0], [], [(fd, [])]. rewrite log_err2. fields.
    rewrite fork_results_app, waited_app, writes_app. cbn.
    repeat split; auto; leaf.
  - exists [0], [], [(fd, [])]. fields.
    rewrite fork_results_app, waited_app, writes_app. cbn.
    repeat split; auto; leaf.
Qed.

(** The loop comes to an end no later than the flag goes down, if the calls
    made until then are answered: one fork and at most three other calls a
    round. *)
Lemma loop_ends fds n : forall backoff forks w kq,
  keep_q w = repeat true n ++ false :: kq ->
  (n <= length forks)%nat ->
  (3 * n <= length (rc_q w))%nat ->
  exists f, daemons_loop fd daemon_wait fds backoff forks w = Some f.
Proof.
  induction n as [|n IH]; intros backoff forks w kq Hk Hforks Hrc.
  - cbn [repeat app] in Hk. rewrite (round_stopped _ _ _ _ _ _ _ Hk). eauto.
  - cbn [repeat app] in Hk.
    destruct forks as [|[pid errno] forks]; [cbn in Hforks; lia|].
    cbn [length] in Hforks.
    destruct (Z.lt_trichotomy pid 0) as [Hneg | [-> | Hpos]].
    + destruct (Z.eq_dec errno EAGAIN) as [He1|He1];
        [|destruct (Z.eq_dec errno ENOMEM) as [He2|He2]].
      * rewrite (round_transient _ _ _ _ (pid, errno) _ _ _ Hk)
          by (split; [exact Hneg | now left]).
        apply (IH _ _ _ kq); fields; [reflexivity | lia | lia].
      * rewrite (round_transient _ _ _ _ (pid, errno) _ _ _ Hk)
          by (split; [exact Hneg | now right]).
        apply (IH _ _ _ kq); fields; [reflexivity | lia | lia].
      * rewrite (round_fatal _ _ _ _ _ _ _ _ _ Hk Hneg He1 He2). eauto.
    + destruct (rc_q w) as [|rc [|sz [|e rq]]] eqn:Hq;
        try (cbn [length] in Hrc; lia).
      destruct (Z.lt_ge_cases rc 0) as [Hrcneg|Hrcok].
      { rewrite (round_child_chdir_fails _ _ _ _ _ _ _ _ _ _ Hk Hq Hrcneg).
        eauto. }
      destruct (Z.lt_ge_cases sz 0) as [Hszneg|Hszok].
      * destruct (Z.eq_dec e EPIPE) as [->|He];
          [destruct (disposition_of SIGPIPE w) eqn:Hd|].
        -- rewrite (round_child_killed _ _ _ _ _ _ _ _ _ _ _
                      Hk Hq Hrcok Hszneg Hd). eauto.
        -- rewrite (round_child_write_fails _ _ _ _ _ _ _ _ _ _ _ _
                      Hk Hq Hrcok Hszneg) by (intros [_ Hd']; congruence).
           eauto.
        -- rewrite (round_child_write_fails _ _ _ _ _ _ _ _ _ _ _ _
                      Hk Hq Hrcok Hszneg) by (intros [He' _]; congruence).
           eauto.
      * destruct (Z.eq_dec sz 1) as [->|Hsz].
        -- rewrite (round_child_written _ _ _ _ _ _ _ _ _ _ Hk Hq Hrcok).
           apply (IH _ _ _ kq); fields; [reflexivity | lia |].
           cbn [length] in *. lia.
        -- rewrite (round_child_write_short _ _ _ _ _ _ _ _ _ _ _
                      Hk Hq Hrcok Hszok Hsz). eauto.
    + rewrite (round_parent _ _ _ _ _ _ _ _ _ Hk Hpos). eauto.
Qed.

End RunFacts.

(** ** The Worker's lineage, from [daemons] on *)

Section Lineage.
Context `{Platform}.

Lemma daemons_log fd daemon_wait forks w f :
  daemons fd daemon_wait forks w = Some f ->
  exists frs tail ws,
    fork_results (log (image f)) = fork_results (log w) ++ frs ++ tail
    /\ Forall (fun pid => pid <= 0) frs
    /\ (tail = [] \/ exists pid, 0 < pid /\ tail = [pid])
    /\ waited (log (image f))
       = waited (log w) ++ (if daemon_wait then tail else [])
    /\ writes (log (image f)) = writes (log w) ++ ws
    /\ Forall (fun x => fst x = fd /\ (snd x = [] \/ snd x = [255])) ws
    /\ (length ws <= length (List.filter (Z.eqb 0) frs))%nat.
Proof.
  unfold daemons. destruct (daemons_init fd w) as [r|] eqn:Hinit; [|discriminate].
  apply daemons_init_summary in Hinit as (_ & _ & (new & Hlog & Hnew) & _).
  apply init_actions_quiet in Hnew as (Hf & Hw & Hp & _ & _).
  destruct r as [w1|fds w1]; cbn [init_world] in Hlog.
  - intros [= <-]. exists [], [], []. cbn [image]. rewrite Hlog.
    rewrite fork_results_app, waited_app, writes_app, Hf, Hw, Hp.
    repeat split; auto. now destruct daemon_wait.
  - intros Hrun. apply loop_run_complete, loop_run_log in Hrun.
    rewrite Hlog in Hrun.
    rewrite fork_results_app, waited_app, writes_app, Hf, Hw, Hp in Hrun.
    now rewrite !app_nil_r in Hrun.
Qed.

Lemma daemons_keeps fd daemon_wait forks w f :
  daemons fd daemon_wait forks w = Some f ->
  counter (image f) = counter w
  /\ match f with
     | alive w' => open_fds w' ⊆ open_fds w
     | killed sig w' =>
         sig = SIGPIPE
         /\ disposition_of SIGPIPE w' = SIG_DFL
         /\ exists pre, writes (log w') = pre ++ [(fd, [])]
     end.
Proof.
  unfold daemons. destruct (daemons_init fd w) as [r|] eqn:Hinit; [|discriminate].
  apply daemons_init_summary in Hinit as (Hc & _ & _ & Hopen).
  destruct r as [w1|[[fds0 fds1] fds2] w1]; cbn [init_world] in Hc.
  - intros [= <-]. split; [exact Hc|]. etransitivity; [exact Hopen|]. included.
  - intros Hrun.
    destruct (loop_keeps_dispositions _ _ _ _ _ _ _ Hrun) as [_ Hc'].
    apply loop_run_complete in Hrun. split; [congruence|].
    destruct f as [w'|sig w'].
    + apply loop_run_open_fds in Hrun.
      etransitivity; [exact Hrun|]. rewrite Hopen. included.
    + now apply (loop_run_killed _ _ _ _ _ _ _ Hrun sig w').
Qed.

End Lineage.

(** X1.  Whatever happens in [daemons], whether the process returns from it
    or is ended in it, every write goes to the write end of the pipe and
    carries the sentinel byte 255 or nothing, and there are no more writes
    than forks that returned 0: a descendant writes at most once. *)
Theorem lineage_writes_only_sentinels `{Platform} (fd : Z)
    (daemon_wait : bool) (forks : list (Z * Z)) (w : world) (f : fate) :
  daemons fd daemon_wait forks w = Some f ->
  exists frs ws,
    fork_results (log (image f)) = fork_results (log w) ++ frs
    /\ writes (log (image f)) = writes (log w) ++ ws
    /\ Forall (fun x => fst x = fd /\ (snd x = [] \/ snd x = [255])) ws
    /\ (length ws <= length (List.filter (Z.eqb 0) frs))%nat.
Proof.
  intros Hrun.
  apply daemons_log in Hrun
    as (frs & tail & ws & Hf & _ & _ & _ & Hw & Hall & Hlen).
  exists (frs ++ tail), ws. repeat split; auto.
  rewrite List.filter_app, length_app. lia.
Qed.

Lemma lineage_writes_only_sentinels_witness :
  let w := worker_start [true; true; true] [0; 0; 0; 1; 2; 0; 1; 0; 0] in
  let run := daemons (H:=linux) 4 false [(0, 0); (0, 0); (9, 0)] w in
  exists frs ws,
    fork_results (log (image (ended_or (alive w) run)))
    = fork_results (log w) ++ frs
    /\ writes (log (image (ended_or (alive w) run))) = writes (log w) ++ ws
    /\ Forall (fun x => fst x = 4 /\ (snd x = [] \/ snd x = [255])) ws
    /\ (length ws <= length (List.filter (Z.eqb 0) frs))%nat.
Proof.
  intros w run.
  apply (lineage_writes_only_sentinels (H:=linux) 4 false
           [(0, 0); (0, 0); (9, 0)] w (ended_or (alive w) run)).
  vm_compute. reflexivity.
Defined.

(** X2.  In [daemons] a process forks until a fork succeeds for it as the
    parent, and then no more: of the return values of [fork] it sees, only the
    last can be a pid.  It waits for nobody but that child, and only if
    [daemon_wait] is set.  This holds whether the process returns from
    [daemons] or is ended in it. *)
Theorem lineage_forks_once_waits_if_asked `{Platform} (fd : Z)
    (daemon_wait : bool) (forks : list (Z * Z)) (w : world) (f : fate) :
  daemons fd daemon_wait forks w = Some f ->
  exists frs tail,
    fork_results (log (image f)) = fork_results (log w) ++ frs ++ tail
    /\ Forall (fun pid => pid <= 0) frs
    /\ (tail = [] \/ exists pid, 0 < pid /\ tail = [pid])
    /\ waited (log (image f))
       = waited (log w) ++ (if daemon_wait then tail else []).
Proof.
  intros Hrun.
  apply daemons_log in Hrun
    as (frs & tail & ws & Hf & Hneg & Htail & Hw & _).
  now exists frs, tail.
Qed.

Lemma lineage_forks_once_waits_if_asked_witness :
  let w := worker_start [true; true; true] [0; 0; 0; 1; 2; 0; 1] in
  let run := daemons (H:=linux) 4 true [(-1, 11); (0, 0); (9, 0); (10, 0)] w in
  exists frs tail,
    fork_results (log (image (ended_or (alive w) run)))
    = fork_results (log w) ++ frs ++ tail
    /\ Forall (fun pid => pid <= 0) frs
    /\ (tail = [] \/ exists pid, 0 < pid /\ tail = [pid])
    /\ waited (log (image (ended_or (alive w) run)))
       = waited (log w) ++ (if true then tail else []).
Proof.
  intros w run.
  apply (lineage_forks_once_waits_if_asked (H:=linux) 4 true
           [(-1, 11); (0, 0); (9, 0); (10, 0)] w (ended_or (alive w) run)).
  vm_compute. reflexivity.
Defined.

(** X3.  A process of the Worker's lineage that comes to an end in
    [stress_daemon] does so in one of two ways.  Either it leaves through
    [shim_exit_group(0)], and then it holds neither end of the pipe nor any
    descriptor it did not hold at the Orchestrator's fork.  Or SIGPIPE, at
    its default action, ends it inside a write to the pipe that delivers
    nothing.  Either way it has counted nothing. *)
Theorem lineage_exits_clean `{Platform} (daemon_wait : bool)
    (fds0 fds1 errno : Z) (forks reads : list (Z * Z)) (w : world)
    (x : ending) (w' : world) :
  again daemon_wait fds0 fds1 ((0, errno) :: forks) reads w = Some (x, w') ->
  counter w' = counter w
  /\ ((x = exited 0 /\ open_fds w' ⊆ open_fds w ∖ {[fds0]} ∖ {[fds1]})
      \/ (x = signalled SIGPIPE
          /\ disposition_of SIGPIPE w' = SIG_DFL
          /\ exists pre, writes (log w') = pre ++ [(fds1, [])])).
Proof.
  rewrite lineage_exits.
  destruct (daemons _ _ _ _) as [[w3|sig w3]|] eqn:Hrun; [| |discriminate];
    intros [= <- <-]; apply daemons_keeps in Hrun as [Hc Hrest];
    cbn [image] in Hc.
  - split; [exact Hc|]. left. split; [reflexivity|].
    unfold close in *. fields. fields_in Hrest.
    apply elem_of_subseteq. intros y Hy.
    apply elem_of_difference in Hy as [Hy Hne].
    apply elem_of_difference. split; [now apply Hrest | exact Hne].
  - split; [exact Hc|]. right. destruct Hrest as (-> & Hd & Hw). auto.
Qed.

Lemma lineage_exits_clean_witness :
  let w := World {[0; 1; 2; 3; 4]} {[14 := STOP_HANDLER]} 0 []
                 [true; true] [] [0; 0; 0; 1; 2; 0; 1; 0; -1; 32] [] in
  let run := again (H:=linux) false 3 4 [(0, 0); (0, 0); (0, 0)] [] w in
  let x := fst (ended_or (exited 0, w) run) in
  let w' := snd (ended_or (exited 0, w) run) in
  counter w' = counter w
  /\ ((x = exited 0 /\ open_fds w' ⊆ open_fds w ∖ {[3]} ∖ {[4]})
      \/ (x = signalled 13
          /\ disposition_of 13 w' = SIG_DFL
          /\ exists pre, writes (log w') = pre ++ [(4, [])])).
Proof.
  intros w run x w'.
  apply (lineage_exits_clean (H:=linux) false 3 4 0 [(0, 0); (0, 0)] [] w).
  vm_compute. reflexivity.
Defined.

(** X13.  The spawning loop comes to an end no later than the flag goes down:
    if [keep_stressing_flag] answers true [n] times and then false, forks are
    answered for [n] rounds and three other calls a round, then the process
    leaves the loop or is ended in it. *)
Theorem spawning_loop_ends_when_flag_goes_down `{Platform} (fd : Z)
    (daemon_wait : bool) (fds : Z * Z * Z) (n : nat) (backoff : Z)
    (forks : list (Z * Z)) (w : world) (kq : list bool) :
  keep_q w = repeat true n ++ false :: kq ->
  (n <= length forks)%nat ->
  (3 * n <= length (rc_q w))%nat ->
  exists f,
    daemons_loop fd daemon_wait fds backoff forks w = Some f
    /\ counter (image f) = counter w
    /\ match f with
       | alive w' => forall x, x ∈ open_fds w' -> x ∈ open_fds w
       | killed sig _ => sig = SIGPIPE
       end.
Proof.
  intros Hk Hforks Hrc.
  destruct (loop_ends fd daemon_wait fds n backoff forks w kq Hk Hforks Hrc)
    as [f Hrun].
  exists f. split; [exact Hrun|].
  destruct (loop_keeps_dispositions _ _ _ _ _ _ _ Hrun) as [_ Hc].
  split; [exact Hc|].
  apply loop_run_complete in Hrun. destruct fds as [[fds0 fds1] fds2].
  destruct f as [w'|sig w'].
  - apply loop_run_open_fds in Hrun. intros x Hx.
    apply Hrun in Hx. repeat apply elem_of_difference in Hx as [Hx _].
    exact Hx.
  - now apply (loop_run_killed _ _ _ _ _ _ _ Hrun sig w').
Qed.

Lemma spawning_loop_ends_when_flag_goes_down_witness :
  let w := World {[0; 1; 2; 4]} ∅ 0 [] [true; true; true; false] []
                 [0; 1; 7; 0; 1; 7; 7; 7; 7] [] in
  exists f,
    daemons_loop (H:=linux) 4 false (0, 1, 2) 100
      [(-1, 11); (0, 0); (-1, 12)] w
    = Some f
    /\ counter (image f) = counter w
    /\ match f with
       | alive w' => forall x, x ∈ open_fds w' -> x ∈ open_fds w
       | killed sig _ => sig = 13
       end.
Proof.
  intros w.
  apply (spawning_loop_ends_when_flag_goes_down (H:=linux) 4 false (0, 1, 2)
           3 100 [(-1, 11); (0, 0); (-1, 12)] w []).
  - reflexivity.
  - cbn. lia.
  - cbn. lia.
Defined.

(** X14.  A process of the Worker's lineage comes to an end no later than the
    flag goes down.  If, from the Orchestrator's fork on, the flag answers
    true [n] times and then false, the next [n] forks are answered, and so
    are the five calls of the initialisation and three calls a round, then
    the process exits with 0 or is ended by SIGPIPE, and has counted
    nothing. *)
Theorem lineage_ends_when_flag_goes_down `{Platform} (daemon_wait : bool)
    (fds0 fds1 errno : Z) (n : nat) (forks reads : list (Z * Z)) (w : world)
    (kq : list bool) :
  keep_q w = repeat true n ++ false :: kq ->
  (n <= length forks)%nat ->
  (5 + 3 * n <= length (rc_q w))%nat ->
  exists x w',
    again daemon_wait fds0 fds1 ((0, errno) :: forks) reads w = Some (x, w')
    /\ (x = exited 0 \/ x = signalled SIGPIPE)
    /\ counter w' = counter w.
Proof.
  intros Hk Hforks Hrc. rewrite lineage_exits.
  set (w2 := close fds0 (did (a_fork 0) w)).
  assert (rc_q w2 = rc_q w /\ keep_q w2 = keep_q w) as [Hrc2 Hk2]
    by (unfold w2, close; now fields).
  destruct (rc_q w2) as [|r1 [|r2 [|r3 [|r4 [|r5 rq]]]]] eqn:Hq;
    try (rewrite <- Hrc2 in Hrc; cbn [length] in Hrc; lia).
  destruct (daemons_init_ends fds1 w2 _ _ _ _ _ _ Hq) as (r & Hinit & Hrq).
  assert (exists f, daemons fds1 daemon_wait forks w2 = Some f) as [f Hrun].
  { unfold daemons. rewrite Hinit. destruct r as [w3|fds w3]; [eauto|].
    apply daemons_init_summary in Hinit as (_ & Hk3 & _).
    cbn [init_world] in Hk3.
    apply (loop_ends _ _ _ n _ _ _ kq); [congruence | exact Hforks |].
    rewrite Hrq. rewrite <- Hrc2 in Hrc. cbn [length] in Hrc. lia. }
  rewrite Hrun. apply daemons_keeps in Hrun as [Hc Hrest].
  assert (counter w2 = counter w) as Hc2 by (unfold w2, close; now fields).
  destruct f as [w3|sig w3]; cbn [image] in Hc.
  - exists (exited 0), (close fds1 w3). split; [reflexivity|].
    split; [now left|]. unfold close. fields. congruence.
  - exists (signalled sig), w3. split; [reflexivity|].
    destruct Hrest as (-> & _). split; [now right | congruence].
Qed.

Lemma lineage_ends_when_flag_goes_down_witness :
  let w := World {[0; 1; 2; 3; 4]} {[14 := STOP_HANDLER]} 0 []
                 [true; true; false] [] [0; 0; 0; 1; 2; 0; 1; 7; 0; -1; 32] []
  in
  exists x w',
    again (H:=linux) true 3 4 ((0, 0) :: [(0, 0); (0, 0)]) [] w = Some (x, w')
    /\ (x = exited 0 \/ x = signalled 13)
    /\ counter w' = counter w.
Proof.
  intros w.
  apply (lineage_ends_when_flag_goes_down (H:=linux) true 3 4 0 2
           [(0, 0); (0, 0)] [] w []).
  - reflexivity.
  - cbn. lia.
  - cbn. lia.
Defined.

(** ** The Orchestrator's read loop, run by run *)

Section ReadRuns.
Context `{Platform}.

Lemma read_loop_starved fds0 n errno reads w :
  0 <= n -> keep_q w = [] -> read_loop fds0 ((n, errno) :: reads) w = None.
Proof.
  intros Hn Hk. cbn [read_loop read fst snd].
  destruct (Z.ltb_spec n 0); [lia|].
  unfold keep_stressing, next_keep, inc_counter. fields. now rewrite Hk.
Qed.

(** The loop forks nothing, writes nothing, waits for nobody. *)
Lemma read_loop_quiet fds0 reads : forall w w',
  read_loop fds0 reads w = Some w' ->
  fork_results (log w') = fork_results (log w)
  /\ waited (log w') = waited (log w)
  /\ writes (log w') = writes (log w).
Proof.
  induction reads as [|[n errno] reads IH]; intros w w' Hrun; [discriminate|].
  destruct (Z.lt_ge_cases n 0) as [Hn|Hn].
  - rewrite read_failed_ends in Hrun by exact Hn. injection Hrun as <-.
    fields. rewrite fork_results_app, waited_app, writes_app.
    destruct (errno =? EINTR); cbn; now rewrite !app_nil_r.
  - destruct (keep_q w) as [|keep kq] eqn:Hk.
    + now rewrite read_loop_starved in Hrun.
    + rewrite (read_counted _ _ _ _ _ _ _ Hn Hk) in Hrun. cbv zeta in Hrun.
      destruct keep.
      * apply IH in Hrun as (Hf & Hw & Hwr).
        fields_in Hf. fields_in Hw. fields_in Hwr.
        rewrite fork_results_app in Hf. rewrite waited_app in Hw.
        rewrite writes_app in Hwr. cbn in Hf, Hw, Hwr.
        now rewrite app_nil_r in Hf, Hw, Hwr.
      * injection Hrun as <-. fields.
        rewrite fork_results_app, waited_app, writes_app. cbn.
        now rewrite !app_nil_r.
Qed.

(** Reads that do not fail, with the harness saying "go on" after each. *)
Lemma read_loop_goes_on fds0 done : forall rest w kq,
  Forall (fun a => 0 <= fst a) done ->
  keep_q w = repeat true (length done) ++ kq ->
  read_loop fds0 (done ++ rest) w
  = read_loop fds0 rest
      (World (open_fds w) (sig_table w)
             (counter w + Z.of_nat (length done))
             (log w ++ map (fun a => a_read fds0 (fst a)) done)
             kq (redo_q w) (rc_q w) (pipe_q w)).
Proof.
  induction done as [|[n errno] done IH]; intros rest w kq Hall Hk.
  - cbn [length repeat app map Z.of_nat] in *.
    rewrite app_nil_r, Z.add_0_r. destruct w; cbn in *; now subst.
  - apply Forall_cons_iff in Hall as [Hn Hall].
    cbn [length repeat app map fst] in *.
    rewrite (read_counted _ _ _ _ _ _ _ Hn Hk). cbv zeta.
    rewrite (IH rest _ kq Hall); [|reflexivity]. fields.
    rewrite <- app_assoc. cbn [app].
    now replace (counter w + 1 + Z.of_nat (length done))
      with (counter w + Z.of_nat (S (length done))) by lia.
Qed.

End ReadRuns.

(** X4.  Every run of the read loop that comes to an end has made one read
    more than it got "go on" from the harness: all reads but the last did not
    fail; each read that did not fail was counted, whatever it delivered; the
    read end is closed exactly when the last read failed, and the harness was
    asked after every read that did not fail. *)
Theorem read_loop_accounting `{Platform} (fds0 : Z) (reads : list (Z * Z))
    (w w' : world) :
  read_loop fds0 reads w = Some w' ->
  exists done last rest,
    reads = done ++ last :: rest
    /\ Forall (fun a => 0 <= fst a) done
    /\ read_results (log w')
       = read_results (log w) ++ map fst done ++ [fst last]
    /\ if fst last <? 0 then
         counter w' = counter w + Z.of_nat (length done)
         /\ open_fds w' = open_fds w ∖ {[fds0]}
         /\ keep_q w = repeat true (length done) ++ keep_q w'
       else
         counter w' = counter w + Z.of_nat (length done) + 1
         /\ open_fds w' = open_fds w
         /\ keep_q w = repeat true (length done) ++ false :: keep_q w'.
Proof.
  revert w w'.
  induction reads as [|[n errno] reads IH]; intros w w' Hrun; [discriminate|].
  destruct (Z.ltb_spec n 0) as [Hn|Hn].
  - rewrite read_failed_ends in Hrun by exact Hn. injection Hrun as <-.
    exists [], (n, errno), reads. cbn [fst app length map repeat].
    destruct (Z.ltb_spec n 0); [|lia]. fields.
    repeat split; auto; [|lia].
    rewrite read_results_app. now destruct (errno =? EINTR).
  - destruct (keep_q w) as [|keep kq] eqn:Hk.
    + now rewrite read_loop_starved in Hrun.
    + rewrite (read_counted _ _ _ _ _ _ _ Hn Hk) in Hrun. cbv zeta in Hrun.
      destruct keep.
      * apply IH in Hrun
          as (done & last & rest & -> & Hall & Hres & Hlast).
        fields_in Hres. fields_in Hlast.
        rewrite read_results_app in Hres. cbn in Hres.
        rewrite <- app_assoc in Hres.
        exists ((n, errno) :: done), last, rest.
        cbn [app length map fst repeat].
        repeat split; auto.
        destruct (fst last <? 0); destruct Hlast as (Hc & Ho & Hq);
          (repeat split; [lia | exact Ho | now rewrite Hq]).
      * injection Hrun as <-.
        exists [], (n, errno), reads. cbn [fst app length map repeat].
        destruct (Z.ltb_spec n 0); [lia|]. fields.
        repeat split; auto; [|lia].
        now rewrite read_results_app.
Qed.

Lemma read_loop_accounting_witness :
  let w := boot [true; true; false] [] [] [] in
  let run := read_loop (H:=linux) 3 [(1, 0); (0, 0); (-1, 4); (1, 0)] w in
  exists done last rest,
    [(1, 0); (0, 0); (-1, 4); (1, 0)] = done ++ last :: rest
    /\ Forall (fun a => 0 <= fst a) done
    /\ read_results (log (ended_or w run))
       = read_results (log w) ++ map fst done ++ [fst last]
    /\ if fst last <? 0 then
         counter (ended_or w run) = counter w + Z.of_nat (length done)
         /\ open_fds (ended_or w run) = open_fds w ∖ {[3]}
         /\ keep_q w = repeat true (length done) ++ keep_q (ended_or w run)
       else
         counter (ended_or w run) = counter w + Z.of_nat (length done) + 1
         /\ open_fds (ended_or w run) = open_fds w
         /\ keep_q w
            = repeat true (length done) ++ false :: keep_q (ended_or w run).
Proof.
  intros w run.
  apply (read_loop_accounting (H:=linux) 3
           [(1, 0); (0, 0); (-1, 4); (1, 0)] w).
  vm_compute. reflexivity.
Defined.

(** X5.  A whole run that the harness stops: the handler is registered, the
    pipe made, the Worker forked; [k] reads that do not fail are each
    followed by "go on", one more by "stop".  Then [stress_daemon] returns
    EXIT_SUCCESS having counted [k + 1], made exactly these reads, waited for
    the Worker if [daemon-wait] is set, and closed the write end. *)
Theorem run_counts_until_stopped `{Platform} (setting : option bool)
    (pid errno : Z) (forks done : list (Z * Z)) (last : Z * Z)
    (rest : list (Z * Z)) (w : world) (rc : Z) (rq : list Z)
    (p : pipe_answer) (pq : list pipe_answer) (kq : list bool) :
  rc_q w = rc :: rq ->
  0 <= rc ->
  pipe_q w = p :: pq ->
  0 <= pipe_rc p ->
  0 < pid ->
  Forall (fun a => 0 <= fst a) (done ++ [last]) ->
  keep_q w = repeat true (length done) ++ false :: kq ->
  exists w',
    stress_daemon setting ((pid, errno) :: forks) (done ++ last :: rest) w
    = Some (returned EXIT_SUCCESS, w')
    /\ counter w' = counter w + Z.of_nat (length done) + 1
    /\ log w'
       = log w ++ a_set_proc_state STRESS_STATE_RUN :: a_fork pid
           :: map (fun a => a_read (pipe_rd p) (fst a)) (done ++ [last])
           ++ (if default false setting then [a_waitpid pid] else [])
           ++ [a_set_proc_state STRESS_STATE_DEINIT]
    /\ (pipe_wr p ∉ open_fds w')
    /\ keep_q w' = kq.
Proof.
  intros Hrc Hok Hp Hpok Hpid Hall Hk.
  apply Forall_app in Hall as [Hdone Hlast].
  apply Forall_cons_iff in Hlast as [Hlast _].
  rewrite (stress_daemon_set_up _ _ _ _ _ _ _ _ Hrc Hok Hp Hpok).
  rewrite (again_parent _ _ _ _ _ _ _ _ Hpid).
  rewrite (read_loop_goes_on _ done (last :: rest) _ (false :: kq) Hdone)
    by exact Hk.
  destruct last as [n e]. cbn [fst] in Hlast.
  rewrite (read_counted _ n e rest _ false kq Hlast) by reflexivity.
  cbv zeta.
  unfold finish, stress_set_proc_state, close, daemon_wait_pid, waitpid.
  destruct (default false setting); fields;
    (eexists; split; [reflexivity|]); fields;
    repeat split; try closed; try lia;
    rewrite map_app, <- !app_assoc; reflexivity.
Qed.

Lemma run_counts_until_stopped_witness :
  exists w',
    stress_daemon (H:=linux) (Some true) ((7, 0) :: [])
      ([(1, 0); (1, 0)] ++ (1, 0) :: [(1, 0)])
      (boot [true; true; false; true] [] [0] [pipe_3_4])
    = Some (returned EXIT_SUCCESS, w')
    /\ counter w' = 0 + Z.of_nat (length [(1, 0); (1, 0)]) + 1
    /\ log w'
       = [] ++ a_set_proc_state STRESS_STATE_RUN :: a_fork 7
           :: map (fun a => a_read 3 (fst a)) ([(1, 0); (1, 0)] ++ [(1, 0)])
           ++ (if default false (Some true) then [a_waitpid 7] else [])
           ++ [a_set_proc_state STRESS_STATE_DEINIT]
    /\ (4 ∉ open_fds w')
    /\ keep_q w' = [true].
Proof.
  apply (run_counts_until_stopped (H:=linux) (Some true) 7 0 []
           [(1, 0); (1, 0)] (1, 0) [(1, 0)]
           (boot [true; true; false; true] [] [0] [pipe_3_4])
           0 [] pipe_3_4 [] [true]).
  - reflexivity.
  - lia.
  - reflexivity.
  - cbn. lia.
  - lia.
  - repeat constructor; cbn; lia.
  - reflexivity.
Defined.

(** X6.  A whole run that a failed read ends: after [k] reads that do not
    fail, each followed by "go on", a read fails.  Then [stress_daemon]
    returns EXIT_SUCCESS having counted [k], with both ends of the pipe
    closed; the failure is logged unless it is EINTR, and the Worker is waited
    for if [daemon-wait] is set. *)
Theorem run_ends_at_failed_read `{Platform} (setting : option bool)
    (pid errno : Z) (forks done : list (Z * Z)) (n e : Z)
    (rest : list (Z * Z)) (w : world) (rc : Z) (rq : list Z)
    (p : pipe_answer) (pq : list pipe_answer) (kq : list bool) :
  rc_q w = rc :: rq ->
  0 <= rc ->
  pipe_q w = p :: pq ->
  0 <= pipe_rc p ->
  0 < pid ->
  Forall (fun a => 0 <= fst a) done ->
  n < 0 ->
  keep_q w = repeat true (length done) ++ kq ->
  exists w',
    stress_daemon setting ((pid, errno) :: forks) (done ++ (n, e) :: rest) w
    = Some (returned EXIT_SUCCESS, w')
    /\ counter w' = counter w + Z.of_nat (length done)
    /\ log w'
       = log w ++ a_set_proc_state STRESS_STATE_RUN :: a_fork pid
           :: map (fun a => a_read (pipe_rd p) (fst a)) (done ++ [(n, e)])
           ++ (if e =? EINTR then [] else [a_pr_dbg read_failed e])
           ++ (if default false setting then [a_waitpid pid] else [])
           ++ [a_set_proc_state STRESS_STATE_DEINIT]
    /\ (pipe_rd p ∉ open_fds w')
    /\ (pipe_wr p ∉ open_fds w')
    /\ keep_q w' = kq.
Proof.
  intros Hrc Hok Hp Hpok Hpid Hdone Hn Hk.
  rewrite (stress_daemon_set_up _ _ _ _ _ _ _ _ Hrc Hok Hp Hpok).
  rewrite (again_parent _ _ _ _ _ _ _ _ Hpid).
  rewrite (read_loop_goes_on _ done ((n, e) :: rest) _ kq Hdone) by exact Hk.
  rewrite (read_failed_ends _ n e rest _ Hn).
  unfold finish, stress_set_proc_state, close, daemon_wait_pid, waitpid.
  destruct (default false setting), (e =? EINTR); fields;
    (eexists; split; [reflexivity|]); fields;
    repeat split; try closed; try lia;
    rewrite map_app, <- !app_assoc; reflexivity.
Qed.

Lemma run_ends_at_failed_read_witness :
  exists w',
    stress_daemon (H:=linux) None ((7, 0) :: [])
      ([(1, 0)] ++ (-1, 5) :: [(1, 0)])
      (boot [true; true] [] [0] [pipe_3_4])
    = Some (returned EXIT_SUCCESS, w')
    /\ counter w' = 0 + Z.of_nat (length [(1, 0)])
    /\ log w'
       = [] ++ a_set_proc_state STRESS_STATE_RUN :: a_fork 7
           :: map (fun a => a_read 3 (fst a)) ([(1, 0)] ++ [(-1, 5)])
           ++ (if 5 =? 4 then [] else [a_pr_dbg read_failed 5])
           ++ (if default false None then [a_waitpid 7] else [])
           ++ [a_set_proc_state STRESS_STATE_DEINIT]
    /\ (3 ∉ open_fds w')
    /\ (4 ∉ open_fds w')
    /\ keep_q w' = [true].
Proof.
  apply (run_ends_at_failed_read (H:=linux) None 7 0 [] [(1, 0)] (-1) 5
           [(1, 0)] (boot [true; true] [] [0] [pipe_3_4])
           0 [] pipe_3_4 [] [true]).
  - reflexivity.
  - lia.
  - reflexivity.
  - cbn. lia.
  - lia.
  - repeat constructor; cbn; lia.
  - lia.
  - reflexivity.
Defined.

(** ** How [stress_daemon] can end *)

Lemma no_pid_among_failures negs :
  Forall (fun pid => pid < 0) negs -> List.filter (Z.ltb 0) negs = [].
Proof.
  induction 1 as [|pid negs Hpid _ IH]; [reflexivity|].
  cbn [List.filter]. destruct (Z.ltb_spec 0 pid); [lia | exact IH].
Qed.

Lemma not_failed_nonneg ns : 0 <= not_failed ns.
Proof. unfold not_failed. lia. Qed.

Section Endings.
Context `{Platform}.
Variables (daemon_wait : bool) (fds0 fds1 : Z).

Lemma again_starved_redo pid errno forks reads w :
  pid < 0 -> redo_q w = [] ->
  again daemon_wait fds0 fds1 ((pid, errno) :: forks) reads w = None.
Proof.
  intros Hpid Hd. cbn [again]. destruct (Z.ltb_spec pid 0); [|lia].
  unfold stress_redo_fork. fields. now rewrite Hd.
Qed.

Lemma again_starved_keep pid errno forks reads w dq :
  pid < 0 -> redo_q w = false :: dq -> keep_q w = [] ->
  again daemon_wait fds0 fds1 ((pid, errno) :: forks) reads w = None.
Proof.
  intros Hpid Hd Hk. cbn [again]. destruct (Z.ltb_spec pid 0); [|lia].
  unfold stress_redo_fork, keep_stressing, next_keep. fields.
  rewrite Hd. fields. now rewrite Hk.
Qed.

(** The ways out of [stress_daemon] from the label [again] on. *)
Lemma again_facts forks : forall reads w x w',
  again daemon_wait fds0 fds1 forks reads w = Some (x, w') ->
  match x with
  | exited code => code = 0 /\ counter w' = counter w
  | signalled sig => sig = SIGPIPE /\ counter w' = counter w
  | returned rc =>
      exists negs tail,
        fork_results (log w') = fork_results (log w) ++ negs ++ tail
        /\ Forall (fun pid => pid < 0) negs
        /\ waited (log w') = waited (log w) ++ (if daemon_wait then tail else [])
        /\ ((rc = EXIT_FAILURE /\ tail = [] /\ counter w' = counter w
             /\ read_results (log w') = read_results (log w))
            \/ (rc = EXIT_SUCCESS /\ tail = [] /\ counter w' = counter w
                /\ read_results (log w') = read_results (log w))
            \/ (rc = EXIT_SUCCESS /\ (exists pid, 0 < pid /\ tail = [pid])
                /\ counter w <= counter w'))
  end.
Proof.
  induction forks as [|[pid errno] forks IH]; intros reads w x w' Hrun;
    [discriminate|].
  destruct (Z.lt_trichotomy pid 0) as [Hneg | [-> | Hpos]].
  - destruct (redo_q w) as [|[|] dq] eqn:Hd.
    + now rewrite again_starved_redo in Hrun.
    + rewrite (again_retried _ _ _ _ _ _ _ _ _ Hneg Hd) in Hrun.
      apply IH in Hrun. destruct x as [rc|code|sig]; try exact Hrun.
      destruct Hrun as (negs & tail & Hf & Hall & Hw & Hcases).
      fields_in Hf. fields_in Hw. fields_in Hcases.
      rewrite fork_results_app in Hf. rewrite waited_app in Hw.
      rewrite read_results_app in Hcases.
      cbn in Hf, Hw, Hcases. rewrite app_nil_r in Hw, Hcases.
      rewrite <- app_assoc in Hf.
      exists (pid :: negs), tail. repeat split; auto.
    + destruct (keep_q w) as [|keep kq] eqn:Hk.
      * now rewrite (again_starved_keep _ _ _ _ _ dq) in Hrun.
      * rewrite (again_gives_up _ _ _ _ _ _ _ _ dq keep kq Hneg Hd Hk) in Hrun.
        destruct keep; injection Hrun as <- <-; exists [pid], []; fields;
          rewrite fork_results_app, waited_app, read_results_app; cbn;
          rewrite ?app_nil_r;
          repeat split; auto;
          try solve [destruct daemon_wait; now rewrite app_nil_r];
          try solve [constructor; [lia | constructor]];
          try solve [left; repeat split; reflexivity];
          try solve [right; left; repeat split; reflexivity].
  - rewrite lineage_exits in Hrun.
    destruct (daemons _ _ _ _) as [[w3|sig w3]|] eqn:Hd; [| |discriminate];
      injection Hrun as <- <-; apply daemons_keeps in Hd as [Hc Hrest];
      cbn [image] in Hc.
    + split; [reflexivity | exact Hc].
    + split; [apply Hrest | exact Hc].
  - rewrite (again_parent _ _ _ _ _ _ _ _ Hpos) in Hrun.
    destruct (read_loop _ _ _) as [w3|] eqn:Hr; [|discriminate].
    injection Hrun as <- <-.
    destruct (read_loop_quiet _ _ _ _ Hr) as (Hf & Hw & _).
    destruct (read_loop_counts _ _ _ _ Hr) as (ns & _ & Hc).
    pose proof (not_failed_nonneg ns) as Hns.
    unfold close in Hf, Hw, Hc. fields_in Hf. fields_in Hw. fields_in Hc.
    rewrite fork_results_app in Hf. rewrite waited_app in Hw.
    cbn in Hf, Hw. rewrite app_nil_r in Hw.
    exists [], [pid]. unfold stress_set_proc_state. fields.
    rewrite fork_results_app, waited_app, !log_daemon_wait_pid.
    rewrite fork_results_app, waited_app, Hf, Hw.
    destruct daemon_wait; cbn; rewrite ?app_nil_r;
      repeat split; auto;
      right; right; repeat split; eauto; cbn; lia.
Qed.

End Endings.

Section WholeRun.
Context `{Platform}.

(** The ways out of [stress_daemon]. *)
Lemma stress_daemon_facts setting forks reads w x w' :
  stress_daemon setting forks reads w = Some (x, w') ->
  match x with
  | exited code => code = 0 /\ counter w' = counter w
  | signalled sig => sig = SIGPIPE /\ counter w' = counter w
  | returned rc =>
      exists negs tail,
        fork_results (log w') = fork_results (log w) ++ negs ++ tail
        /\ Forall (fun pid => pid < 0) negs
        /\ waited (log w')
           = waited (log w) ++ (if default false setting then tail else [])
        /\ ((rc = EXIT_FAILURE /\ tail = [] /\ counter w' = counter w
             /\ read_results (log w') = read_results (log w))
            \/ (rc = EXIT_SUCCESS /\ tail = [] /\ counter w' = counter w
                /\ read_results (log w') = read_results (log w))
            \/ (rc = EXIT_SUCCESS /\ (exists pid, 0 < pid /\ tail = [pid])
                /\ counter w <= counter w'))
  end.
Proof.
  assert (forall w0 : world,
            waited (log w0)
            = waited (log w0) ++ (if default false setting then [] else []))
    as Hnowait.
  { intros w0. destruct (default false setting); now rewrite app_nil_r. }
  destruct (rc_q w) as [|rc rq] eqn:Hrc.
  { unfold stress_daemon, stress_sig_stop_stressing, next_rc.
    now rewrite Hrc. }
  destruct (Z.lt_ge_cases rc 0) as [Hneg|Hok].
  { unfold stress_daemon. rewrite (sig_stop_refuses _ _ _ _ Hrc Hneg).
    destruct (Z.ltb_spec rc 0); [|lia]. intros [= <- <-].
    exists [], []. fields. rewrite !app_nil_r.
    repeat split; auto. }
  destruct (pipe_q w) as [|p pq] eqn:Hp.
  { unfold stress_daemon. rewrite (sig_stop_registers _ _ _ _ Hrc Hok).
    destruct (Z.ltb_spec rc 0); [lia|]. unfold pipe. fields.
    now rewrite Hp. }
  destruct (Z.lt_ge_cases (pipe_rc p) 0) as [Hpneg|Hpok].
  { unfold stress_daemon. rewrite (sig_stop_registers _ _ _ _ Hrc Hok).
    destruct (Z.ltb_spec rc 0); [lia|].
    rewrite (pipe_refuses _ p pq) by assumption.
    destruct (Z.ltb_spec (pipe_rc p) 0); [|lia]. intros [= <- <-].
    exists [], []. unfold pr_fail. fields.
    rewrite fork_results_app, waited_app, read_results_app. cbn.
    rewrite !app_nil_r. repeat split; auto. }
  rewrite (stress_daemon_set_up _ _ _ _ _ _ _ _ Hrc Hok Hp Hpok).
  intros Hrun. apply again_facts in Hrun.
  destruct x as [rc'|code|sig]; try exact Hrun.
  destruct Hrun as (negs & tail & Hf & Hall & Hw & Hcases).
  fields_in Hf. fields_in Hw. fields_in Hcases.
  rewrite fork_results_app in Hf. rewrite waited_app in Hw.
  rewrite read_results_app in Hcases.
  cbn in Hf, Hw, Hcases. rewrite app_nil_r in Hf, Hw, Hcases.
  now exists negs, tail.
Qed.

End WholeRun.

(** X7.  A run of [stress_daemon] that comes to an end does so in one of
    four ways: it returns EXIT_FAILURE, it returns EXIT_SUCCESS, or, in the
    Worker's lineage, the process exits with 0 or is ended by SIGPIPE.  The
    counter never goes down.  EXIT_FAILURE means that nothing ran: every fork
    that was tried failed, nothing was read and nothing was counted. *)
Theorem failure_status_means_nothing_ran `{Platform} (setting : option bool)
    (forks reads : list (Z * Z)) (w : world) (x : ending) (w' : world) :
  stress_daemon setting forks reads w = Some (x, w') ->
  (x = returned EXIT_FAILURE \/ x = returned EXIT_SUCCESS
   \/ x = exited 0 \/ x = signalled SIGPIPE)
  /\ counter w <= counter w'
  /\ (x = returned EXIT_FAILURE ->
      counter w' = counter w
      /\ read_results (log w') = read_results (log w)
      /\ exists negs,
           fork_results (log w') = fork_results (log w) ++ negs
           /\ Forall (fun pid => pid < 0) negs)
  /\ (x = exited 0 \/ x = signalled SIGPIPE -> counter w' = counter w).
Proof.
  intros Hrun. apply stress_daemon_facts in Hrun.
  destruct x as [rc|code|sig].
  - destruct Hrun as (negs & tail & Hf & Hall & _ & Hcases).
    destruct Hcases as [(-> & -> & Hc & Hr) | [(-> & -> & Hc & Hr) | (-> & _ & Hc)]].
    + split; [now left|]. split; [lia|]. split; [|intros [|]; discriminate].
      intros _. rewrite app_nil_r in Hf. eauto.
    + split; [right; now left|]. split; [lia|].
      split; [discriminate | intros [|]; discriminate].
    + split; [right; now left|]. split; [lia|].
      split; [discriminate | intros [|]; discriminate].
  - destruct Hrun as [-> Hc]. split; [right; right; now left|].
    split; [lia|]. split; [discriminate | intros _; exact Hc].
  - destruct Hrun as [-> Hc]. split; [right; right; now right|].
    split; [lia|]. split; [discriminate | intros _; exact Hc].
Qed.

Lemma failure_status_means_nothing_ran_witness :
  let w := boot [true] [true; false] [0] [pipe_3_4] in
  let run := stress_daemon (H:=linux) None [(-1, 11); (-1, 38)] [(1, 0)] w in
  let x := fst (ended_or (exited 0, w) run) in
  let w' := snd (ended_or (exited 0, w) run) in
  (x = returned EXIT_FAILURE \/ x = returned EXIT_SUCCESS
   \/ x = exited 0 \/ x = signalled 13)
  /\ counter w <= counter w'
  /\ (x = returned EXIT_FAILURE ->
      counter w' = counter w
      /\ read_results (log w') = read_results (log w)
      /\ exists negs,
           fork_results (log w') = fork_results (log w) ++ negs
           /\ Forall (fun pid => pid < 0) negs)
  /\ (x = exited 0 \/ x = signalled 13 -> counter w' = counter w).
Proof.
  intros w run x w'.
  apply (failure_status_means_nothing_ran (H:=linux) None
           [(-1, 11); (-1, 38)] [(1, 0)] w).
  vm_compute. reflexivity.
Defined.

(** X8.  The handler of the [daemon-wait] option asks the harness to set
    the setting [daemon-wait] to true, whatever text came with the option.
    If the harness then finds the setting as it was set, a run of
    [stress_daemon] that returns has waited for the Worker it forked, and for
    nobody else. *)
Theorem daemon_wait_option_makes_the_run_wait `{Platform}
    (set_setting : setter) (opt : string) (settings : gmap string bool)
    (forks reads : list (Z * Z)) (w : world) (rc : Z) (w' : world) :
  stress_get_setting "daemon-wait"
    (snd (set_setting "daemon-wait" true settings))
  = Some true ->
  stress_daemon_with
    (snd (stress_daemon_set_daemon_wait set_setting opt settings))
    forks reads w
  = Some (returned rc, w') ->
  exists frs,
    fork_results (log w') = fork_results (log w) ++ frs
    /\ waited (log w') = waited (log w) ++ List.filter (Z.ltb 0) frs.
Proof.
  unfold stress_daemon_with, stress_daemon_set_daemon_wait.
  intros -> Hrun.
  apply stress_daemon_facts in Hrun
    as (negs & tail & Hf & Hall & Hw & Hcases).
  exists (negs ++ tail). split; [exact Hf|].
  rewrite Hw, List.filter_app, (no_pid_among_failures _ Hall). cbn [default app].
  destruct Hcases as [(_ & -> & _) | [(_ & -> & _) | (_ & (pid & Hpid & ->) & _)]];
    try reflexivity.
  cbn [List.filter]. destruct (Z.ltb_spec 0 pid); [reflexivity | lia].
Qed.

Lemma daemon_wait_option_makes_the_run_wait_witness :
  let w := boot [true; false] [true] [0] [pipe_3_4] in
  let settings :=
    snd (stress_daemon_set_daemon_wait (stress_set_setting 0) "" ∅) in
  let run :=
    stress_daemon_with (H:=linux) settings [(-1, 11); (7, 0)]
      [(1, 0); (1, 0)] w in
  let w' := snd (ended_or (exited 0, w) run) in
  exists frs,
    fork_results (log w') = fork_results (log w) ++ frs
    /\ waited (log w') = waited (log w) ++ List.filter (Z.ltb 0) frs.
Proof.
  intros w settings run w'.
  apply (daemon_wait_option_makes_the_run_wait (H:=linux)
           (stress_set_setting 0) "" ∅
           [(-1, 11); (7, 0)] [(1, 0); (1, 0)] w EXIT_SUCCESS).
  - vm_compute. reflexivity.
  - vm_compute. reflexivity.
Defined.

(** X9.  Unless the [daemon-wait] setting is there and true, a run of
    [stress_daemon] that returns has waited for nobody. *)
Theorem no_wait_by_default `{Platform} (settings : gmap string bool)
    (forks reads : list (Z * Z)) (w : world) (rc : Z) (w' : world) :
  stress_get_setting "daemon-wait" settings <> Some true ->
  stress_daemon_with settings forks reads w = Some (returned rc, w') ->
  waited (log w') = waited (log w).
Proof.
  unfold stress_daemon_with. intros Hoff Hrun.
  apply stress_daemon_facts in Hrun as (negs & tail & _ & _ & Hw & _).
  destruct (stress_get_setting "daemon-wait" settings) as [[|]|];
    [congruence | |]; cbn [default] in Hw; now rewrite app_nil_r in Hw.
Qed.

Lemma no_wait_by_default_witness :
  let w := boot [true; false] [] [0] [pipe_3_4] in
  let run := stress_daemon_with (H:=linux) ∅ [(7, 0)] [(1, 0); (1, 0)] w in
  waited (log (snd (ended_or (exited 0, w) run))) = waited (log w).
Proof.
  intros w run.
  apply (no_wait_by_default (H:=linux) ∅ [(7, 0)] [(1, 0); (1, 0)] w
           EXIT_SUCCESS).
  - vm_compute. discriminate.
  - vm_compute. reflexivity.
Defined.

(** ** The reach of the signal reset *)

Lemma signal_reset_outside n : forall i w (j : Z),
  j <= 0 \/ j < i \/ i + Z.of_nat n <= j ->
  sig_table (signal_reset n i w) !! j = sig_table w !! j.
Proof.
  induction n as [|n IH]; intros i w j Hj; [reflexivity|].
  cbn [signal_reset]. rewrite IH by lia.
  unfold signal. destruct (Z.ltb_spec 0 i); [|reflexivity].
  cbn. apply lookup_insert_ne. lia.
Qed.

(** X10.  The reset loop of [daemons] stops short of MAX_SIGNUM: a signal
    number from MAX_SIGNUM on (or not above 0) keeps the disposition it had
    when the loop began, so a stop signal numbered MAX_SIGNUM or more would
    still have its handler after the initialisation. *)
Theorem reset_stops_short_of_max_signum `{Platform} (fd : Z) (w : world)
    (r1 r2 r3 r4 r5 : Z) (rq : list Z) :
  rc_q w = r1 :: r2 :: r3 :: r4 :: r5 :: rq ->
  0 <= r1 ->
  0 <= r2 ->
  exists r,
    daemons_init fd w = Some r
    /\ forall sig,
         sig <= 0 \/ MAX_SIGNUM <= sig ->
         disposition_of sig (init_world r)
         = if decide (sig = SIGALRM) then STOP_HANDLER
           else disposition_of sig w.
Proof.
  intros Hrc H1 H2.
  destruct (daemons_init_dispositions fd w _ _ _ _ _ _ Hrc H1 H2)
    as (r & w3 & Hinit & Hreg & Htable).
  exists r. split; [exact Hinit|]. intros sig Hsig.
  unfold disposition_of. rewrite Htable, signal_reset_outside by lia.
  rewrite Hreg. destruct (decide (sig = SIGALRM)) as [->|Hne].
  - now rewrite lookup_insert_eq.
  - now rewrite lookup_insert_ne by congruence.
Qed.

Lemma reset_stops_short_of_max_signum_witness :
  let w := World {[0; 1; 2; 4]} {[65 := STOP_HANDLER]} 0 [] [] []
                 [0; 0; 0; 1; 2] [] in
  exists r,
    daemons_init (H:=linux) 4 w = Some r
    /\ forall sig,
         sig <= 0 \/ 65 <= sig ->
         disposition_of sig (init_world r)
         = if decide (sig = 14) then STOP_HANDLER else disposition_of sig w.
Proof.
  intros w.
  apply (reset_stops_short_of_max_signum (H:=linux) 4 w 0 0 0 1 2 []).
  - reflexivity.
  - lia.
  - lia.
Defined.

(** ** The delay, for every value *)

(** X11.  Whatever 64-bit value the delay holds, the next one lies between 0
    and 10000.  Counted from the entry of [daemons], the delay is
    [100 * (k + 1)] after [k] updates as long as [k < 99], and 10000 from the
    99th update on: the hundredth sleep is the first at the cap. *)
Theorem backoff_reaches_cap_at_hundredth_sleep :
  (forall backoff, 0 <= next_backoff backoff <= MAX_BACKOFF)
  /\ (forall k, (k < 99)%nat ->
        backoff_after k = 100 * (Z.of_nat k + 1)
        /\ backoff_after k < MAX_BACKOFF)
  /\ (forall k, (99 <= k)%nat -> backoff_after k = MAX_BACKOFF).
Proof.
  split; [|split].
  - intros backoff. unfold next_backoff, u64, MAX_BACKOFF.
    pose proof (Z.mod_pos_bound (backoff + 100) (2 ^ 64) ltac:(lia)) as Hm.
    destruct (Z.gtb_spec ((backoff + 100) mod 2 ^ 64) 10000); lia.
  - intros k Hk. rewrite backoff_after_closed. unfold MAX_BACKOFF. lia.
  - intros k Hk. rewrite backoff_after_closed. unfold MAX_BACKOFF. lia.
Qed.

Lemma backoff_reaches_cap_at_hundredth_sleep_witness :
  backoff_after 98 = 100 * (Z.of_nat 98 + 1) /\ backoff_after 98 < MAX_BACKOFF.
Proof.
  apply (proj1 (proj2 backoff_reaches_cap_at_hundredth_sleep) 98%nat). lia.
Defined.

(** ** The outcomes of the initialisation *)

Ltac as_orders :=
  repeat match goal with
  | E : (_ <? _) = true |- _ => apply Z.ltb_lt in E
  | E : (_ <? _) = false |- _ => apply Z.ltb_ge in E
  end.

(** X12.  With its five calls answered, the initialisation of [daemons]
    reaches the spawning loop exactly when none of them fails, holding the
    three descriptors it was given on top of what was open (0, 1 and 2
    closed).  When a call fails, the write end of the pipe is closed; if it
    is the registration or [setsid] that fails, nothing else is touched;
    later, every descriptor acquired so far is closed again. *)
Theorem init_failures_release_descriptors `{Platform} (fd : Z) (w : world)
    (r1 r2 r3 r4 r5 : Z) (rq : list Z) :
  rc_q w = r1 :: r2 :: r3 :: r4 :: r5 :: rq ->
  exists r,
    daemons_init fd w = Some r
    /\ match r with
       | init_ready fds w' =>
           (0 <= r1 /\ 0 <= r2 /\ 0 <= r3 /\ 0 <= r4 /\ 0 <= r5)
           /\ fds = (r3, r4, r5)
           /\ open_fds w'
              = {[r5]} ∪ ({[r4]} ∪ ({[r3]}
                  ∪ open_fds w ∖ {[0]} ∖ {[1]} ∖ {[2]}))
       | init_aborted w' =>
           (r1 < 0 \/ r2 < 0 \/ r3 < 0 \/ r4 < 0 \/ r5 < 0)
           /\ (fd ∉ open_fds w')
           /\ if (r1 <? 0) || (r2 <? 0)
              then open_fds w' = open_fds w ∖ {[fd]}
              else open_fds w'
                   ⊆ open_fds w ∖ {[0]} ∖ {[1]} ∖ {[2]} ∖ {[fd]}
       end.
Proof.
  intros Hrc.
  unfold daemons_init, stress_sig_stop_stressing, next_rc. rewrite Hrc.
  destruct (r1 <? 0) eqn:E1; rewrite ?E1.
  { eexists. split; [reflexivity|]. cbn [orb]. unfold err, close. fields.
    as_orders. repeat split; auto. closed. }
  unfold setsid, next_rc. fields.
  destruct (r2 <? 0) eqn:E2; rewrite ?E2.
  { eexists. split; [reflexivity|]. cbn [orb]. unfold err, close. fields.
    as_orders. repeat split; auto. closed. }
  cbn [orb].
  match goal with
  | |- context [signal_reset ?m 0 ?x] => set (w3 := x); set (n := m)
  end.
  rewrite (signal_reset_frame n 0 w3).
  set (t := sig_table (signal_reset n 0 w3)).
  unfold open_dev_null, dup, next_rc, w3, close.
  destruct HAVE_CLEARENV; fields.
  all: destruct (r3 <? 0) eqn:E3; fields; rewrite ?E3.
  all: try (eexists; split; [reflexivity|]; unfold err, close; fields;
            as_orders; repeat split; auto 6; try closed; try included).
  all: destruct (r4 <? 0) eqn:E4; fields; rewrite ?E4.
  all: try (eexists; split; [reflexivity|]; unfold err0, err, close; fields;
            as_orders; repeat split; auto 6; try closed; try included).
  all: destruct (r5 <? 0) eqn:E5; fields; rewrite ?E5.
  all: try (eexists; split; [reflexivity|]; unfold err1, err0, err, close;
            fields; as_orders; repeat split; auto 6; try closed; try included).
  all: eexists; split; [reflexivity|]; fields; as_orders; repeat split; auto.
Qed.

Lemma init_failures_release_descriptors_witness :
  let w := World {[0; 1; 2; 4]} ∅ 0 [] [] [] [0; 0; 0; 1; -1] [] in
  exists r,
    daemons_init (H:=linux) 4 w = Some r
    /\ match r with
       | init_ready fds w' =>
           (0 <= 0 /\ 0 <= 0 /\ 0 <= 0 /\ 0 <= 1 /\ 0 <= -1)
           /\ fds = (0, 1, -1)
           /\ open_fds w'
              = {[-1]} ∪ ({[1]} ∪ ({[0]}
                  ∪ open_fds w ∖ {[0]} ∖ {[1]} ∖ {[2]}))
       | init_aborted w' =>
           (0 < 0 \/ 0 < 0 \/ 0 < 0 \/ 1 < 0 \/ -1 < 0)
           /\ (4 ∉ open_fds w')
           /\ if (0 <? 0) || (0 <? 0)
              then open_fds w' = open_fds w ∖ {[4]}
              else open_fds w'
                   ⊆ open_fds w ∖ {[0]} ∖ {[1]} ∖ {[2]} ∖ {[4]}
       end.
Proof.
  intros w.
  apply (init_failures_release_descriptors (H:=linux) 4 w 0 0 0 1 (-1) []).
  reflexivity.
Defined.
